(** * Real-time pipeline-status synchronisation of the call-audit frontend

    A shallow embedding of the client code that tracks one call's analysis
    pipeline over a WebSocket and aggregates a batch of calls by polling:

    - [UseWebSocket]      : hooks/useWebSocket.ts (connection lifecycle, send)
    - [PipelineProgress]  : components/PipelineProgress.tsx (message reducer)
    - [CallDetailPage]    : app/calls/[id]/page.tsx (result fetches, settle timer)
    - [BatchPage]         : app/batch/[batchId]/page.tsx (counts, auto-refresh)

    React state is modelled by records, callbacks by functions on those
    records, the browser's event loop by explicit event traces. *)

From Stdlib Require Import ZArith List String Bool Arith Lia.
From Stdlib Require Import Floats Uint63.
Import ListNotations.
Local Open Scope string_scope.
Local Open Scope Z_scope.
Set Warnings "-register-all".

(* ===================================================================== *)
(** ** JavaScript values and control flow                                *)
(* ===================================================================== *)

Module Js.

(** What [JSON.parse] can return. Numbers are restricted to integers, the
    domain the wire protocol uses for [progress_pct]. An object lists its
    own properties, one entry per key. *)
Inductive JVal : Type :=
| JNull
| JBool (b : bool)
| JNum (n : Z)
| JStr (s : string)
| JArr (items : list JVal)
| JObj (fields : list (string * JVal)).

(** The result of reading a property or variable of type [unknown]:
    [None] is [undefined]. *)
Definition Slot : Type := option JVal.

Fixpoint assoc (k : string) (fs : list (string * JVal)) : Slot :=
  match fs with
  | [] => None
  | (k', v) :: rest => if String.eqb k k' then Some v else assoc k rest
  end.

(** [x ?? d] *)
Definition nullish (x : Slot) (d : JVal) : JVal :=
  match x with
  | None | Some JNull => d
  | Some v => v
  end.

(** [x === "lit"] *)
Definition strict_eq_str (x : Slot) (lit : string) : bool :=
  match x with
  | Some (JStr s) => String.eqb s lit
  | _ => false
  end.

(** [x === n] for an integer literal [n] *)
Definition strict_eq_num (x : Slot) (n : Z) : bool :=
  match x with
  | Some (JNum m) => Z.eqb m n
  | _ => false
  end.

(** [v.length]. Arrays and strings have one; an object has it only as an
    own property; numbers and booleans do not. ([null.length] throws; the
    only caller reads it from a state that is never null.) *)
Definition length_of (v : JVal) : Slot :=
  match v with
  | JArr items => Some (JNum (Z.of_nat (List.length items)))
  | JStr s => Some (JNum (Z.of_nat (String.length s)))
  | JObj fs => assoc "length" fs
  | _ => None
  end.

(** [Object.is] as React applies it to effect dependencies. Primitives
    compare by value. Arrays and objects are references, which [JVal]
    does not track; they are reported as changed. *)
Definition same_value (a b : Slot) : bool :=
  match a, b with
  | None, None => true
  | Some JNull, Some JNull => true
  | Some (JBool x), Some (JBool y) => Bool.eqb x y
  | Some (JNum x), Some (JNum y) => Z.eqb x y
  | Some (JStr x), Some (JStr y) => String.eqb x y
  | _, _ => false
  end.

Inductive Error : Type := TypeError | SyntaxError | InvalidStateError.

(** A computation over a mutable state [S] that completes normally with
    a value or abruptly with a thrown error; either way the state
    reached so far is kept. *)
Inductive Completion (S A : Type) : Type :=
| Normal (a : A) (s : S)
| Thrown (e : Error) (s : S).
Arguments Normal {S A} a s.
Arguments Thrown {S A} e s.

Definition Eff (S A : Type) : Type := S -> Completion S A.

Definition ret {S A} (a : A) : Eff S A := fun s => Normal a s.

Definition bind {S A B} (m : Eff S A) (k : A -> Eff S B) : Eff S B :=
  fun s => match m s with
           | Normal a s' => k a s'
           | Thrown e s' => Thrown e s'
           end.

Definition throw {S A} (e : Error) : Eff S A := fun s => Thrown e s.

Definition modify {S} (f : S -> S) : Eff S unit := fun s => Normal tt (f s).

(** [try { body } catch { handler }] *)
Definition try_catch {S A} (body : Eff S A) (handler : Error -> Eff S A) : Eff S A :=
  fun s => match body s with
           | Normal a s' => Normal a s'
           | Thrown e s' => handler e s'
           end.

Definition final_state {S A} (c : Completion S A) : S :=
  match c with Normal _ s => s | Thrown _ s => s end.

Definition completes {S A} (c : Completion S A) : bool :=
  match c with Normal _ _ => true | Thrown _ _ => false end.

(** [v.k] for the keys the message handler reads ([type], [stages],
    [progress_pct], [call_status]): none of them is a property of a
    primitive or of an array, and reading from [null] throws. *)
Definition prop {S} (v : JVal) (k : string) : Eff S Slot :=
  match v with
  | JNull => throw TypeError
  | JObj fs => ret (assoc k fs)
  | _ => ret None
  end.

End Js.

Declare Scope eff_scope.
Delimit Scope eff_scope with eff.
Notation "x <- m ;; k" := (Js.bind m (fun x => k))
  (at level 61, m at next level, right associativity) : eff_scope.
Notation "m ;;; k" := (Js.bind m (fun _ => k))
  (at level 61, right associativity) : eff_scope.

(* ===================================================================== *)
(** ** hooks/useWebSocket.ts                                             *)
(* ===================================================================== *)

Module UseWebSocket.
Import Js.

(** [WebSocket.readyState] *)
Inductive ReadyState : Type := CONNECTING | OPEN | CLOSING | CLOSED.

(** A timer created by [setTimeout]. *)
Record Timer : Type := mkTimer { delay : Z; pending : bool }.

(** The hook's [useState] cell, its three refs, and the browser objects
    they point to: every [WebSocket] the hook constructed and every timer
    it set, addressed by position. *)
Record Hook : Type := mkHook {
  connected : bool;
  wsRef : option nat;
  reconnectTimer : option nat;
  unmounted : bool;
  sockets : list ReadyState;
  timers : list Timer
}.

Definition initial : Hook :=
  {| connected := false; wsRef := None; reconnectTimer := None;
     unmounted := false; sockets := []; timers := [] |}.

Definition setConnected (b : bool) (h : Hook) : Hook :=
  mkHook b (wsRef h) (reconnectTimer h) (unmounted h) (sockets h) (timers h).
Definition set_wsRef (r : option nat) (h : Hook) : Hook :=
  mkHook (connected h) r (reconnectTimer h) (unmounted h) (sockets h) (timers h).
Definition set_reconnectTimer (r : option nat) (h : Hook) : Hook :=
  mkHook (connected h) (wsRef h) r (unmounted h) (sockets h) (timers h).
Definition set_unmounted (b : bool) (h : Hook) : Hook :=
  mkHook (connected h) (wsRef h) (reconnectTimer h) b (sockets h) (timers h).
Definition set_sockets (l : list ReadyState) (h : Hook) : Hook :=
  mkHook (connected h) (wsRef h) (reconnectTimer h) (unmounted h) l (timers h).
Definition set_timers (l : list Timer) (h : Hook) : Hook :=
  mkHook (connected h) (wsRef h) (reconnectTimer h) (unmounted h) (sockets h) l.

Fixpoint update_nth {A} (i : nat) (f : A -> A) (l : list A) : list A :=
  match l, i with
  | [], _ => []
  | x :: rest, O => f x :: rest
  | x :: rest, S j => x :: update_nth j f rest
  end.

Definition readyState (i : nat) (h : Hook) : option ReadyState :=
  nth_error (sockets h) i.

(** The channel state the hook's caller can observe through [wsRef]. *)
Definition current (h : Hook) : option ReadyState :=
  match wsRef h with
  | None => None
  | Some i => readyState i h
  end.

(** [new WebSocket(url)] *)
Definition new_WebSocket (h : Hook) : nat * Hook :=
  (List.length (sockets h), set_sockets (sockets h ++ [CONNECTING]) h).

(** [ws.close()]: starts the closing handshake of a socket that is
    connecting or open, and does nothing otherwise. *)
Definition close_state (r : ReadyState) : ReadyState :=
  match r with
  | CONNECTING | OPEN => CLOSING
  | CLOSING => CLOSING
  | CLOSED => CLOSED
  end.

Definition ws_close (i : nat) (h : Hook) : Hook :=
  set_sockets (update_nth i close_state (sockets h)) h.

(** [setTimeout(connect, 3000)] *)
Definition reconnect_delay : Z := 3000.

Definition setTimeout (ms : Z) (h : Hook) : nat * Hook :=
  (List.length (timers h), set_timers (timers h ++ [mkTimer ms true]) h).

Definition clearTimeout (i : nat) (h : Hook) : Hook :=
  set_timers (update_nth i (fun t => mkTimer (delay t) false) (timers h)) h.

(** [connect]: the guard, then a fresh socket stored in [wsRef]. The four
    handlers it installs are the definitions that follow. *)
Definition connect (enabled : bool) (h : Hook) : Hook :=
  if unmounted h || negb enabled then h
  else let (ws, h') := new_WebSocket h in set_wsRef (Some ws) h'.

Definition ws_onopen (h : Hook) : Hook :=
  if negb (unmounted h) then setConnected true h else h.

(** [ws.onclose]. Only a [connect] that passed its guard creates a socket,
    so the [connect] this handler re-schedules was built with [enabled]
    true; the timer set here is recorded with the 3000 ms delay. *)
Definition ws_onclose (h : Hook) : Hook :=
  if negb (unmounted h)
  then let h1 := setConnected false h in
       let (t, h2) := setTimeout reconnect_delay h1 in
       set_reconnectTimer (Some t) h2
  else h.

(** [ws.onerror], for the socket [ws] it was installed on. *)
Definition ws_onerror (ws : nat) (h : Hook) : Hook := ws_close ws h.

(** What a frame's [event.data] is to [JSON.parse]: text that parses to a
    value, or anything else. *)
Inductive Frame : Type :=
| NotJson
| Json (v : JVal).

Definition JSON_parse {S} (f : Frame) : Eff S JVal :=
  match f with
  | NotJson => throw SyntaxError
  | Json v => ret v
  end.

(** [ws.onmessage]: the [try] covers the parse and the callback. *)
Definition ws_onmessage {S} (onMessage : option (JVal -> Eff S unit))
    (f : Frame) : Eff S unit :=
  try_catch
    (data <- JSON_parse f ;;
     match onMessage with
     | Some k => k data
     | None => ret tt
     end)%eff
    (fun _ => ret tt).

(** Body of the hook's effect. *)
Definition effect (enabled : bool) (h : Hook) : Hook :=
  let h1 := set_unmounted false h in
  if enabled then connect enabled h1 else h1.

(** Its cleanup. *)
Definition cleanup (h : Hook) : Hook :=
  let h1 := set_unmounted true h in
  let h2 := match reconnectTimer h1 with
            | Some t => clearTimeout t h1
            | None => h1
            end in
  match wsRef h2 with
  | Some ws => ws_close ws h2
  | None => h2
  end.

(** What a call of [send] does. *)
Inductive SendOutcome : Type :=
| Transmitted (payload : JVal)
| Dropped
| Raised (e : Error).

(** [WebSocket.send] as the WebSockets standard defines it: it throws
    [InvalidStateError] while the socket is connecting, transmits while it
    is open, and discards the data once closing has started. *)
Definition WebSocket_send (r : ReadyState) (payload : JVal) : SendOutcome :=
  match r with
  | CONNECTING => Raised InvalidStateError
  | OPEN => Transmitted payload
  | CLOSING | CLOSED => Dropped
  end.

(** [send]: [wsRef.current?.send(JSON.stringify(msg))]. The hook keeps no
    outgoing queue, so its state is not an output. *)
Definition send (msg : JVal) (h : Hook) : SendOutcome :=
  match current h with
  | None => Dropped
  | Some r => WebSocket_send r msg
  end.

(** The subscription's channel state as the specification names it. *)
Inductive ChannelState : Type := Idle | Connecting | Open | Closed.

Definition channelState (h : Hook) : ChannelState :=
  match current h with
  | None => Idle
  | Some CONNECTING => Connecting
  | Some OPEN => Open
  | Some CLOSING | Some CLOSED => Closed
  end.

End UseWebSocket.

(* ===================================================================== *)
(** ** components/PipelineProgress.tsx                                   *)
(* ===================================================================== *)

Module PipelineProgress.
Import Js.

(** The four [useState] cells. They hold whatever the frame carried: the
    casts [as Stage[]], [as number], [as string] do nothing at run time. *)
Record State : Type := mkState {
  stages : JVal;
  progressPct : JVal;
  callStatus : Slot;
  done : bool
}.

Definition setStages (v : JVal) (s : State) : State :=
  mkState v (progressPct s) (callStatus s) (done s).
Definition setProgressPct (v : JVal) (s : State) : State :=
  mkState (stages s) v (callStatus s) (done s).
Definition setCallStatus (v : Slot) (s : State) : State :=
  mkState (stages s) (progressPct s) v (done s).
Definition setDone (b : bool) (s : State) : State :=
  mkState (stages s) (progressPct s) (callStatus s) b.

(** Initial values of the [useState] calls. *)
Definition initial (initialStatus : string) : State :=
  {| stages := JArr [];
     progressPct := JNum 0;
     callStatus := Some (JStr initialStatus);
     done := String.eqb initialStatus "completed"
             || String.eqb initialStatus "failed" |}.

(** [enabled: !done] *)
Definition enabled (s : State) : bool := negb (done s).

Section Handler.
(** [W] is whatever the parent's [onComplete] callback acts on. *)
Context {W : Type}.
Variable onComplete : option (W -> W).

Definition on_view (f : State -> State) : Eff (State * W) unit :=
  modify (fun sw => (f (fst sw), snd sw)).

(** [onComplete?.()] *)
Definition call_onComplete : Eff (State * W) unit :=
  match onComplete with
  | Some k => modify (fun sw => (fst sw, k (snd sw)))
  | None => ret tt
  end.

(** The [onMessage] option passed to [useWebSocket]. *)
Definition onMessage (msg : JVal) : Eff (State * W) unit :=
  (ty <- prop msg "type" ;;
   if strict_eq_str ty "pipeline_progress"
      || strict_eq_str ty "pipeline_complete"
   then
     st <- prop msg "stages" ;;
     on_view (setStages (nullish st (JArr []))) ;;;
     pct <- prop msg "progress_pct" ;;
     on_view (setProgressPct (nullish pct (JNum 0))) ;;;
     cs <- prop msg "call_status" ;;
     on_view (setCallStatus cs) ;;;
     ty' <- prop msg "type" ;;
     if strict_eq_str ty' "pipeline_complete"
     then on_view (setDone true) ;;; call_onComplete
     else ret tt
   else ret tt)%eff.
End Handler.

(** The dependency array [[done, stages.length]] of the second effect. *)
Definition deps (s : State) : bool * Slot := (done s, length_of (stages s)).

Definition deps_changed (prev cur : bool * Slot) : bool :=
  negb (Bool.eqb (fst prev) (fst cur))
  || negb (same_value (snd prev) (snd cur)).

(** Body of the effect "if already completed before we mount, show full
    bar". *)
Definition show_full_bar (s : State) : State :=
  if done s && strict_eq_num (length_of (stages s)) 0
  then setProgressPct (JNum 100) s
  else s.

(** A commit: the effect runs on mount ([prev = None]) and whenever one
    of its dependencies differs from the previous commit's. *)
Definition commit (prev : option (bool * Slot)) (s : State) : State :=
  match prev with
  | None => show_full_bar s
  | Some d => if deps_changed d (deps s) then show_full_bar s else s
  end.

End PipelineProgress.

(* ===================================================================== *)
(** ** app/calls/[id]/page.tsx, around one mounted progress panel        *)
(* ===================================================================== *)

Module CallDetailPage.
Import Js.

(** The page's traffic with the job store: how many
    [callsApi.getResults(callId)] requests were issued, and how many
    [setTimeout(fetchData, 1000)] timers are waiting. *)
Record Net : Type := mkNet { fetches : nat; settleTimers : nat }.

Definition settle_delay : Z := 1000.

Definition fetchData (n : Net) : Net := mkNet (S (fetches n)) (settleTimers n).

(** [handlePipelineComplete]: schedule [fetchData] after the settle delay. *)
Definition handlePipelineComplete (n : Net) : Net :=
  mkNet (fetches n) (S (settleTimers n)).

(** The panel's state, the dependencies of its last commit, its hook, and
    the page's traffic. *)
Record Page : Type := mkPage {
  panel : PipelineProgress.State;
  lastDeps : option (bool * Slot);
  hook : UseWebSocket.Hook;
  net : Net
}.

(** The page has run its mount effect ([fetchData]) and rendered the panel
    with [initialStatus]; the panel's effects have run. *)
Definition mount (initialStatus : string) : Page :=
  let s := PipelineProgress.initial initialStatus in
  {| panel := PipelineProgress.commit None s;
     lastDeps := Some (PipelineProgress.deps s);
     hook := UseWebSocket.effect (PipelineProgress.enabled s) UseWebSocket.initial;
     net := fetchData (mkNet 0 0) |}.

(** What the event loop can run next. Socket events name the socket, timer
    events the timer. *)
Inductive Event : Type :=
| WsOpen (ws : nat)
| WsMessage (ws : nat) (f : UseWebSocket.Frame)
| WsError (ws : nat)
| WsClose (ws : nat)
| ReconnectTimer (t : nat)
| SettleTimer
| Render.

Definition set_hook (h : UseWebSocket.Hook) (p : Page) : Page :=
  mkPage (panel p) (lastDeps p) h (net p).

Definition set_socket (ws : nat) (r : UseWebSocket.ReadyState)
    (h : UseWebSocket.Hook) : UseWebSocket.Hook :=
  UseWebSocket.set_sockets
    (UseWebSocket.update_nth ws (fun _ => r) (UseWebSocket.sockets h)) h.

Definition timer_pending (t : nat) (h : UseWebSocket.Hook) : bool :=
  match nth_error (UseWebSocket.timers h) t with
  | Some tm => UseWebSocket.pending tm
  | None => false
  end.

(** One turn of the event loop; [None] when the browser cannot raise the
    event in this state (no [open] on a socket that is not connecting, no
    [message] on one that is not open, no timer that is not pending). A
    re-render gives [useWebSocket] a new [onMessage], hence a new
    [connect], so the hook's effect is cleaned up and run again with
    [enabled = !done]. [Render] is a re-render that completes; a run may
    place it anywhere, so the runs include every schedule React follows
    and more. After which turns React does re-render is
    [Rendering.rerenders]. *)
Definition step (e : Event) (p : Page) : option Page :=
  let h := hook p in
  match e with
  | WsOpen ws =>
      match UseWebSocket.readyState ws h with
      | Some UseWebSocket.CONNECTING =>
          Some (set_hook (UseWebSocket.ws_onopen
                            (set_socket ws UseWebSocket.OPEN h)) p)
      | _ => None
      end
  | WsMessage ws f =>
      match UseWebSocket.readyState ws h with
      | Some UseWebSocket.OPEN =>
          let after :=
            final_state
              (UseWebSocket.ws_onmessage
                 (Some (PipelineProgress.onMessage (Some handlePipelineComplete)))
                 f (panel p, net p)) in
          Some (mkPage (fst after) (lastDeps p) h (snd after))
      | _ => None
      end
  | WsError ws =>
      match UseWebSocket.readyState ws h with
      | Some UseWebSocket.CONNECTING | Some UseWebSocket.OPEN =>
          Some (set_hook (UseWebSocket.ws_onerror ws h) p)
      | _ => None
      end
  | WsClose ws =>
      match UseWebSocket.readyState ws h with
      | Some UseWebSocket.CLOSED | None => None
      | Some _ =>
          Some (set_hook (UseWebSocket.ws_onclose
                            (set_socket ws UseWebSocket.CLOSED h)) p)
      end
  | ReconnectTimer t =>
      if timer_pending t h
      then Some (set_hook (UseWebSocket.connect true
                             (UseWebSocket.clearTimeout t h)) p)
      else None
  | SettleTimer =>
      match settleTimers (net p) with
      | O => None
      | S k => Some (mkPage (panel p) (lastDeps p) h
                            (fetchData (mkNet (fetches (net p)) k)))
      end
  | Render =>
      Some (mkPage (PipelineProgress.commit (lastDeps p) (panel p))
                   (Some (PipelineProgress.deps (panel p)))
                   (UseWebSocket.effect (PipelineProgress.enabled (panel p))
                                        (UseWebSocket.cleanup h))
                   (net p))
  end.

Fixpoint run (es : list Event) (p : Page) : option Page :=
  match es with
  | [] => Some p
  | e :: rest =>
      match step e p with
      | Some p' => run rest p'
      | None => None
      end
  end.

(** Events whose handler issues a request to the job store. *)
Definition fetching (e : Event) : bool :=
  match e with
  | SettleTimer => true
  | _ => false
  end.

Definition count_fetching (es : list Event) : nat :=
  List.length (filter fetching es).

End CallDetailPage.

(* ===================================================================== *)
(** ** JavaScript numbers used by the batch page                         *)
(* ===================================================================== *)

Module JsNumber.

(** An array length as a Number (exact for every length an array can
    have). *)
Definition of_nat (n : nat) : float :=
  PrimFloat.of_uint63 (Uint63.of_Z (Z.of_nat n)).

(** [Math.round]: the integer nearest to [x], the larger one on a tie.
    For a finite [x = n * 2^e] that is [floor (x + 1/2)], computed here
    without rounding. [None] for NaN and the infinities, which
    [Math.round] returns unchanged. *)
Definition Math_round (x : float) : option Z :=
  match Prim2SF x with
  | S754_zero _ => Some 0
  | S754_finite sign m e =>
      let n := if sign then Z.neg m else Z.pos m in
      Some (if 0 <=? e then n * 2 ^ e
            else (2 * n + 2 ^ (- e)) / 2 ^ (1 - e))
  | S754_infinity _ | S754_nan => None
  end.

End JsNumber.

(* ===================================================================== *)
(** ** app/batch/[batchId]/page.tsx                                      *)
(* ===================================================================== *)

Module BatchPage.

Record BatchCall : Type := mkCall {
  id : Z;
  status : string;
  overall_score : option Z
}.

Definition is_status (lit : string) (c : BatchCall) : bool :=
  String.eqb (status c) lit.

(** [calls.some(c => c.status === "queued" || c.status === "processing")] *)
Definition hasActive (calls : list BatchCall) : bool :=
  existsb (fun c => is_status "queued" c || is_status "processing" c) calls.

Definition total (calls : list BatchCall) : nat := List.length calls.
Definition completed (calls : list BatchCall) : nat :=
  List.length (filter (is_status "completed") calls).
Definition failed (calls : list BatchCall) : nat :=
  List.length (filter (is_status "failed") calls).
Definition inProgress (calls : list BatchCall) : nat :=
  (total calls - completed calls - failed calls)%nat.

(** [total > 0 ? Math.round((completed / total) * 100) : 0], in double
    precision as JavaScript evaluates it. *)
Definition pct_of (completed total : nat) : option Z :=
  if (0 <? total)%nat
  then JsNumber.Math_round
         (PrimFloat.mul
            (PrimFloat.div (JsNumber.of_nat completed) (JsNumber.of_nat total))
            (JsNumber.of_nat 100))
  else Some 0.

Definition progressPct (calls : list BatchCall) : option Z :=
  pct_of (completed calls) (total calls).

(** The page's [calls] state, the handle of the running [setInterval]
    (with its period), and the number of [load] calls awaiting their
    response. *)
Record Batch : Type := mkBatch {
  calls : list BatchCall;
  interval : option Z;
  inFlight : nat
}.

Definition refresh_interval : Z := 5000.

(** The auto-refresh effect, run because [calls] changed: the previous
    run's cleanup ([clearInterval]), then the body. *)
Definition autoRefresh (b : Batch) : Batch :=
  if hasActive (calls b)
  then mkBatch (calls b) (Some refresh_interval) (inFlight b)
  else mkBatch (calls b) None (inFlight b).

(** First render: no calls yet, the mount effect has called [load]. *)
Definition mount : Batch := autoRefresh (mkBatch [] None 1).

(** [Tick]: the interval fires and calls [load]. [Settled r]: a [load]
    in flight gets its answer, the job list [r = Some data] (then
    [setCalls(data)] re-renders and re-runs the effect) or a network
    failure [r = None] (then [load] rejects before [setCalls]). *)
Inductive Event : Type :=
| Tick
| Settled (r : option (list BatchCall)).

Definition step (e : Event) (b : Batch) : option Batch :=
  match e with
  | Tick =>
      match interval b with
      | Some _ => Some (mkBatch (calls b) (interval b) (S (inFlight b)))
      | None => None
      end
  | Settled r =>
      match inFlight b with
      | O => None
      | S k =>
          match r with
          | Some data => Some (autoRefresh (mkBatch data (interval b) k))
          | None => Some (mkBatch (calls b) (interval b) k)
          end
      end
  end.

Fixpoint run (es : list Event) (b : Batch) : option Batch :=
  match es with
  | [] => Some b
  | e :: rest =>
      match step e b with
      | Some b' => run rest b'
      | None => None
      end
  end.

(** A full refresh as one action: the interval fires and its [load]
    settles with [data] before anything else happens. *)
Definition refresh (data : list BatchCall) (b : Batch) : option Batch :=
  run [Tick; Settled (Some data)] b.

(** The statuses of the job store's vocabulary. *)
Definition known_status (c : BatchCall) : Prop :=
  status c = "queued" \/ status c = "processing"
  \/ status c = "completed" \/ status c = "failed".

(** The scheduler is armed, with the fixed period, exactly when the
    current list has an active call. *)
Definition armed_iff_active (b : Batch) : Prop :=
  interval b = (if hasActive (calls b) then Some refresh_interval else None).

(** The batch percentage as the specification words it:
    [round (100 * completed / total)], exactly, ties upward; 0 for an
    empty batch. *)
Definition exact_pct (completed total : nat) : Z :=
  if (0 <? total)%nat
  then (2 * (100 * Z.of_nat completed) + Z.of_nat total) / (2 * Z.of_nat total)
  else 0.

(** The pairs (completed, total), total at most 100, at which the double
    precision product falls just below a tie. *)
Definition below_tie (completed total : nat) : bool :=
  ((completed =? 23) && (total =? 40) || (completed =? 46) && (total =? 80))%nat.

Definition agrees (completed total : nat) : bool :=
  match pct_of completed total with
  | Some z => Z.eqb z (if below_tie completed total
                       then exact_pct completed total - 1
                       else exact_pct completed total)
  | None => false
  end.

Definition agree_upto (n : nat) : bool :=
  forallb (fun t => forallb (fun c => agrees c t) (seq 0 (S t))) (seq 0 (S n)).

(** Relabelling failed calls as still processing. *)
Definition unfail (c : BatchCall) : BatchCall :=
  if is_status "failed" c then mkCall (id c) "processing" (overall_score c) else c.

End BatchPage.

(* ===================================================================== *)
(** ** The wire protocol and a job's event stream                        *)
(* ===================================================================== *)

Module Protocol.
Import Js.

(** A frame of the recognized shape. *)
Definition event (type : string) (stages : list JVal) (progress_pct : Z)
    (call_status : string) : JVal :=
  JObj [("type", JStr type);
        ("stages", JArr stages);
        ("progress_pct", JNum progress_pct);
        ("call_status", JStr call_status)].

Definition stage (name label state : string) : JVal :=
  JObj [("stage", JStr name); ("label", JStr label);
        ("status", JStr state); ("error", JNull)].

Definition progress (stages : list JVal) (pct : Z) : JVal :=
  event "pipeline_progress" stages pct "processing".

Definition complete (stages : list JVal) (pct : Z) (call_status : string) : JVal :=
  event "pipeline_complete" stages pct call_status.

(** [{"type":"ping"}] *)
Definition ping : JVal := JObj [("type", JStr "ping")].

(** The [type] a parsed frame carries, if it is an object. *)
Definition type_of (f : UseWebSocket.Frame) : Slot :=
  match f with
  | UseWebSocket.Json (JObj fs) => assoc "type" fs
  | _ => None
  end.

Definition is_progress (f : UseWebSocket.Frame) : bool :=
  strict_eq_str (type_of f) "pipeline_progress".

Definition is_complete (f : UseWebSocket.Frame) : bool :=
  strict_eq_str (type_of f) "pipeline_complete".

(** The frame decodes and its type is one of the two event kinds. *)
Definition recognized (f : UseWebSocket.Frame) : bool :=
  is_progress f || is_complete f.

Definition count_complete (fs : list UseWebSocket.Frame) : nat :=
  List.length (filter is_complete fs).

Section Stream.
Context {W : Type}.
Variable onComplete : option (W -> W).

(** One frame through [ws.onmessage] with the panel's handler. *)
Definition handle (f : UseWebSocket.Frame) (sw : PipelineProgress.State * W)
    : PipelineProgress.State * W :=
  final_state
    (UseWebSocket.ws_onmessage (Some (PipelineProgress.onMessage onComplete)) f sw).

(** Frames that reach the handler one after the other. *)
Definition deliver (fs : list UseWebSocket.Frame)
    (sw : PipelineProgress.State * W) : PipelineProgress.State * W :=
  fold_left (fun acc f => handle f acc) fs sw.

(** One frame, then the re-render it causes: what the presentation layer
    is left with. [sw] is the state of the previous commit. *)
Definition receive (f : UseWebSocket.Frame) (sw : PipelineProgress.State * W)
    : PipelineProgress.State * W :=
  let out := handle f sw in
  (PipelineProgress.commit (Some (PipelineProgress.deps (fst sw))) (fst out),
   snd out).

(** What a frame of a recognized type amounts to, field by field: the
    wholesale replacement, and the callback on a complete frame. *)
Definition applied (fs : list (string * JVal)) (s : PipelineProgress.State)
    : PipelineProgress.State :=
  PipelineProgress.mkState
    (nullish (assoc "stages" fs) (JArr []))
    (nullish (assoc "progress_pct" fs) (JNum 0))
    (assoc "call_status" fs)
    (is_complete (UseWebSocket.Json (JObj fs)) || PipelineProgress.done s).

Definition called (fs : list (string * JVal)) (w : W) : W :=
  if is_complete (UseWebSocket.Json (JObj fs))
  then match onComplete with Some k => k w | None => w end
  else w.

End Stream.

(** The percentages shown after each frame of a stream. *)
Fixpoint shown (fs : list UseWebSocket.Frame) (s : PipelineProgress.State)
    : list JVal :=
  match fs with
  | [] => []
  | f :: rest =>
      let s' := fst (receive (W := unit) None f (s, tt)) in
      PipelineProgress.progressPct s' :: shown rest s'
  end.

(** A stream of well-formed progress events, given by their stage lists
    and percentages. *)
Definition progress_frames (ps : list (list JVal * Z)) : list UseWebSocket.Frame :=
  map (fun sp => UseWebSocket.Json (progress (fst sp) (snd sp))) ps.

(** The clamp of the specification's numeric semantics. *)
Definition clamp_pct (z : Z) : Z := Z.max 0 (Z.min 100 z).

End Protocol.

(* ===================================================================== *)
(** ** What the progress panel renders                                   *)
(* ===================================================================== *)

Module PanelRender.
Import Js.

(** The early [return null]: an already complete call without stage data
    shows no panel. *)
Definition hidden (initialStatus : string) (s : PipelineProgress.State) : bool :=
  PipelineProgress.done s
  && String.eqb initialStatus "completed"
  && strict_eq_num (length_of (PipelineProgress.stages s)) 0.

(** [stageColor]: the colour of a stage's status text. *)
Definition stageColor (status : Slot) : string :=
  if strict_eq_str status "completed" then "#10b981"
  else if strict_eq_str status "running" then "#6366f1"
  else if strict_eq_str status "failed" then "#ef4444"
  else "var(--text-secondary)".

Inductive Icon : Type := CheckCircle2 | Loader2 | XCircle | Circle.

(** [StageIcon]: the icon of a stage and the colour it is drawn in. *)
Definition StageIcon (status : Slot) : Icon * string :=
  if strict_eq_str status "completed" then (CheckCircle2, "#10b981")
  else if strict_eq_str status "running" then (Loader2, "#6366f1")
  else if strict_eq_str status "failed" then (XCircle, "#ef4444")
  else (Circle, "var(--text-secondary)").

(** The badge at the right of the header: "Live" or "Connecting" while
    the job runs, "Complete" or "Failed" once it is done. *)
Inductive Badge : Type := Live | Waiting | Complete | Failed.

Definition badge (connected : bool) (s : PipelineProgress.State) : Badge :=
  if PipelineProgress.done s
  then if strict_eq_str (PipelineProgress.callStatus s) "completed"
       then Complete else Failed
  else if connected then Live else Waiting.

(** The bar is red when [callStatus === "failed"]. *)
Definition bar_red (s : PipelineProgress.State) : bool :=
  strict_eq_str (PipelineProgress.callStatus s) "failed".

(** The "Waiting for pipeline to start" line. *)
Definition placeholder (s : PipelineProgress.State) : bool :=
  strict_eq_num (length_of (PipelineProgress.stages s)) 0
  && negb (PipelineProgress.done s).

End PanelRender.

(* ===================================================================== *)
(** ** app/calls/[id]/page.tsx: what the page shows for its data         *)
(* ===================================================================== *)

Module CallDetailView.
Import Js.

(** Truthiness of a value, as [!data] and [data &&] test it. *)
Definition truthy (v : Slot) : bool :=
  match v with
  | None | Some JNull => false
  | Some (JBool b) => b
  | Some (JNum n) => negb (Z.eqb n 0)
  | Some (JStr s) => negb (String.eqb s "")
  | Some (JArr _) | Some (JObj _) => true
  end.

(** [data?.k] for the keys [status] and [overall_score], which no
    primitive and no array has. *)
Definition optional_prop (data : Slot) (k : string) : Slot :=
  match data with
  | Some (JObj fs) => assoc k fs
  | _ => None
  end.

(** [data?.status ?? "queued"] *)
Definition callStatus (data : Slot) : JVal :=
  nullish (optional_prop data "status") (JStr "queued").

Definition isProcessing (data : Slot) : bool :=
  strict_eq_str (Some (callStatus data)) "queued"
  || strict_eq_str (Some (callStatus data)) "processing".

(** [{isProcessing && <PipelineProgress ... />}] *)
Definition shows_panel (data : Slot) : bool := isProcessing data.

(** [{!data && !isProcessing && ...}]: the "Call not found or results
    unavailable" card. *)
Definition shows_not_found (data : Slot) : bool :=
  negb (truthy data) && negb (isProcessing data).

(** [{data && data.overall_score !== undefined && ...}] *)
Definition shows_results (data : Slot) : bool :=
  truthy data
  && match optional_prop data "overall_score" with
     | None => false
     | Some _ => true
     end.

(** The answer to one [getResults] request. *)
Inductive Response : Type :=
| Fulfilled (body : Slot)
| Rejected.

Record Loader : Type := mkLoader { data : Slot; loading : bool }.

(** [useState(null)], [useState(true)] *)
Definition initial : Loader := mkLoader (Some JNull) true.

(** The promise chain of [fetchData]:
    [.then(res => setData(res.data)).catch(() => {}).finally(() => setLoading(false))] *)
Definition settle (r : Response) (l : Loader) : Loader :=
  match r with
  | Fulfilled body => mkLoader body false
  | Rejected => mkLoader (data l) false
  end.

(** The refresh button: [setLoading(true); fetchData()]. *)
Definition refresh_clicked (l : Loader) : Loader := mkLoader (data l) true.

End CallDetailView.

(* ===================================================================== *)
(** ** app/batch/[batchId]/page.tsx: fetchBatchCalls                     *)
(* ===================================================================== *)

Module BatchFetch.
Import BatchPage.

(** The answer to [GET /api/calls?batch_id=...]: not [ok], or a body
    whose [calls] may be missing. *)
Inductive ListResponse : Type :=
| ListNotOk
| ListOk (calls : option (list BatchCall)).

(** The answer to [GET /api/calls/{id}/results]: [ok] with the body's
    [overall_score] (absent or a number), not [ok], or a failure the
    [try] catches. *)
Inductive ScoreResponse : Type :=
| ScoreOk (overall_score : option Z)
| ScoreNotOk
| ScoreThrew.

(** The callback mapped over the calls; one answer per call id. The
    [score_label] it also copies is display text outside [BatchCall]. *)
Definition enrich (results : Z -> ScoreResponse) (call : BatchCall) : BatchCall :=
  if is_status "completed" call
  then match results (id call) with
       | ScoreOk score => mkCall (id call) (status call) score
       | ScoreNotOk | ScoreThrew => call
       end
  else call.

Definition fetchBatchCalls (res : ListResponse) (results : Z -> ScoreResponse)
    : list BatchCall :=
  match res with
  | ListNotOk => []
  | ListOk body =>
      map (enrich results) (match body with Some cs => cs | None => [] end)
  end.

(** The colour of a score in the table:
    [score >= 80 ? green : score >= 60 ? amber : red]. *)
Definition scoreColor (score : Z) : string :=
  if 80 <=? score then "#10b981"
  else if 60 <=? score then "#f59e0b"
  else "#ef4444".

End BatchFetch.

(* ===================================================================== *)
(** ** More JavaScript arithmetic                                        *)
(* ===================================================================== *)

Module JsMath.

(** An integer as a Number: the binary64 value nearest to it (the integer
    itself below 2^53 in absolute value, an infinity beyond the range). *)
Definition of_Z (z : Z) : float :=
  SF2Prim (binary_normalize prec emax z 0 false).

(** [Math.floor] and [Math.ceil] of a finite Number, as integers; [None]
    for NaN and the infinities. *)
Definition Math_floor (x : float) : option Z :=
  match Prim2SF x with
  | S754_zero _ => Some 0
  | S754_finite sign m e =>
      let n := if sign then Z.neg m else Z.pos m in
      Some (if 0 <=? e then n * 2 ^ e else n / 2 ^ (- e))
  | S754_infinity _ | S754_nan => None
  end.

Definition Math_ceil (x : float) : option Z :=
  match Prim2SF x with
  | S754_zero _ => Some 0
  | S754_finite sign m e =>
      let n := if sign then Z.neg m else Z.pos m in
      Some (if 0 <=? e then n * 2 ^ e else - ((- n) / 2 ^ (- e)))
  | S754_infinity _ | S754_nan => None
  end.

(** [Math.min] of two Numbers: NaN if either is, else the smaller, with
    [-0] below [+0]. *)
Definition Math_min (x y : float) : float :=
  if PrimFloat.is_nan x then x
  else if PrimFloat.is_nan y then y
  else if PrimFloat.ltb x y then x
  else if PrimFloat.ltb y x then y
  else if PrimFloat.get_sign x then x else y.

End JsMath.

(* ===================================================================== *)
(** ** components/ScoreDial.tsx                                          *)
(* ===================================================================== *)

Module ScoreDial.
#[local] Set Warnings "-inexact-float".

(** [Math.min(score / maxScore, 1)] *)
Definition percentage (score maxScore : float) : float :=
  JsMath.Math_min (PrimFloat.div score maxScore) (JsMath.of_Z 1).

(** [getColor] *)
Definition getColor (pct : float) : string :=
  if PrimFloat.leb 0.8%float pct then "#10b981"
  else if PrimFloat.leb 0.6%float pct then "#f59e0b"
  else "#ef4444".

(** The colour of the arc for an integer score and the default
    [maxScore = 100]. *)
Definition arcColor (score : Z) : string :=
  getColor (percentage (JsMath.of_Z score) (JsMath.of_Z 100)).

End ScoreDial.

(* ===================================================================== *)
(** ** lib/api.ts: the two axios interceptors                            *)
(* ===================================================================== *)

Module Api.

(** [localStorage] and a request's headers, as lookups by key. *)
Definition Storage : Type := string -> option string.
Definition Headers : Type := string -> option string.

Definition getItem (k : string) (s : Storage) : option string := s k.

Definition removeItem (k : string) (s : Storage) : Storage :=
  fun k' => if String.eqb k' k then None else s k'.

Definition setHeader (k v : string) (h : Headers) : Headers :=
  fun k' => if String.eqb k' k then Some v else h k'.

(** The browser's [window]: its storage and [location.href]. On the
    server there is none. *)
Record Window : Type := mkWindow { localStorage : Storage; href : string }.

(** The request interceptor: add the JWT when there is a window and a
    non-empty token. *)
Definition on_request (window : option Window) (headers : Headers) : Headers :=
  match window with
  | Some w =>
      match getItem "access_token" (localStorage w) with
      | Some token =>
          if String.eqb token "" then headers
          else setHeader "Authorization" ("Bearer " ++ token) headers
      | None => headers
      end
  | None => headers
  end.

(** An axios error: [error.response?.status], absent without a response. *)
Record AxiosError : Type := mkError { response_status : option Z }.

(** The response error interceptor: on a 401 in the browser, drop the
    session and go to the login page; in every case reject with the error
    it was given. *)
Definition on_response_error (error : AxiosError) (window : option Window)
    : option Window * AxiosError :=
  match response_status error, window with
  | Some 401, Some w =>
      (Some (mkWindow (removeItem "user" (removeItem "access_token" (localStorage w)))
                      "/login"),
       error)
  | _, _ => (window, error)
  end.

End Api.

(* ===================================================================== *)
(** ** app/calls/page.tsx: pagination and the duration cell              *)
(* ===================================================================== *)

Module CallsPage.

Definition perPage : Z := 20.

(** [Math.ceil(total / perPage)] *)
Definition totalPages (total : Z) : option Z :=
  JsMath.Math_ceil (PrimFloat.div (JsMath.of_Z total) (JsMath.of_Z perPage)).

(** [page], [total] and [statusFilter]. *)
Record State : Type := mkState { page : Z; total : Z; statusFilter : string }.

Definition initial : State := mkState 1 0 "".

Definition pages (s : State) : Z :=
  match totalPages (total s) with Some n => n | None => 0 end.

(** What can happen on the page: a click on a pagination button (the
    bar is rendered when [totalPages > 1], and a disabled button does not
    fire), a click on a status filter, or the answer of the list request
    with the server's [total]. *)
Inductive Click : Type :=
| Previous
| Next
| Filter (status : string)
| Loaded (total : Z).

Definition click (c : Click) (s : State) : option State :=
  match c with
  | Previous =>
      if (1 <? pages s) && negb (page s =? 1)
      then Some (mkState (Z.max 1 (page s - 1)) (total s) (statusFilter s))
      else None
  | Next =>
      if (1 <? pages s) && negb (page s =? pages s)
      then Some (mkState (Z.min (pages s) (page s + 1)) (total s) (statusFilter s))
      else None
  | Filter status => Some (mkState 1 (total s) status)
  | Loaded n => Some (mkState (page s) n (statusFilter s))
  end.

Fixpoint clicks (cs : list Click) (s : State) : option State :=
  match cs with
  | [] => Some s
  | c :: rest =>
      match click c s with
      | Some s' => clicks rest s'
      | None => None
      end
  end.

(** [P] holds of the [n] integers from [z] on. *)
Fixpoint all_from (z : Z) (n : nat) (P : Z -> bool) : bool :=
  match n with
  | O => true
  | S k => P z && all_from (z + 1) k P
  end.

(** The duration cell for a whole number of seconds: a dash for a
    missing or zero duration, else minutes and seconds as
    [Math.floor(d / 60)] and [d % 60]. *)
Definition duration_parts (duration_seconds : option Z) : option (Z * Z) :=
  match duration_seconds with
  | None => None
  | Some d =>
      if d =? 0 then None
      else match JsMath.Math_floor
                   (PrimFloat.div (JsMath.of_Z d) (JsMath.of_Z 60)) with
           | Some m => Some (m, Z.rem d 60)
           | None => None
           end
  end.

(** The checks behind the bounded statements about double precision. *)
Definition pages_agree (total : Z) : bool :=
  match totalPages total with
  | Some n => n =? (total + 19) / 20
  | None => false
  end.

Definition duration_agrees (k : Z) : bool :=
  match duration_parts (Some (k + 1)) with
  | Some (m, s) => (m =? (k + 1) / 60) && (s =? (k + 1) mod 60)
  | None => false
  end.

End CallsPage.

(* ===================================================================== *)
(** ** Invariants and counters used by the properties                    *)
(* ===================================================================== *)

Module Invariants.

(** The hook's refs name objects it created, and its timers all carry
    the reconnect delay. *)
Definition refs_valid (h : UseWebSocket.Hook) : Prop :=
  (forall ws, UseWebSocket.wsRef h = Some ws ->
     (ws < List.length (UseWebSocket.sockets h))%nat)
  /\ (forall t, UseWebSocket.reconnectTimer h = Some t ->
        (t < List.length (UseWebSocket.timers h))%nat)
  /\ Forall (fun t => UseWebSocket.delay t = UseWebSocket.reconnect_delay)
            (UseWebSocket.timers h).

(** Events that make the page schedule its follow-up fetch. *)
Definition scheduling (e : CallDetailPage.Event) : bool :=
  match e with
  | CallDetailPage.WsMessage _ f => Protocol.is_complete f
  | _ => false
  end.

Definition count_scheduling (es : list CallDetailPage.Event) : nat :=
  List.length (filter scheduling es).

(** A call that is neither completed nor failed. *)
Definition unfinished (c : BatchPage.BatchCall) : bool :=
  negb (BatchPage.is_status "completed" c) && negb (BatchPage.is_status "failed" c).

(** The batch bar at [c] of [t] completed: within 0..100, full exactly
    when all are completed, empty exactly when none is, and not lower
    than with one completed call less. *)
Definition bar_ok (c t : nat) : bool :=
  match BatchPage.pct_of c t with
  | Some z =>
      (0 <=? z) && (z <=? 100)
      && Bool.eqb (z =? 100) (c =? t)%nat
      && Bool.eqb (z =? 0) (c =? 0)%nat
      && match c with
         | O => true
         | S c' => match BatchPage.pct_of c' t with
                   | Some z' => z' <=? z
                   | None => false
                   end
         end
  | None => false
  end.

Definition bar_ok_upto (n : nat) : bool :=
  forallb (fun t => forallb (fun c => bar_ok c (S t)) (seq 0 (S (S t)))) (seq 0 n).

(** The dial and the batch table colour an integer score alike. *)
Definition dial_agrees (k : Z) : bool :=
  String.eqb (ScoreDial.arcColor (k - 1000)) (BatchFetch.scoreColor (k - 1000)).

End Invariants.

(* ===================================================================== *)
(** ** When React re-renders the panel                                   *)
(* ===================================================================== *)

Module Rendering.
Import Js.

(** A state setter called with [new] re-renders unless [Object.is(old,
    new)]: primitives compare by value, a parsed array or object is a
    fresh reference. *)
Definition value_changed (old new : Slot) : bool := negb (same_value old new).

Definition view_changed (s s' : PipelineProgress.State) : bool :=
  value_changed (Some (PipelineProgress.stages s)) (Some (PipelineProgress.stages s'))
  || value_changed (Some (PipelineProgress.progressPct s))
                   (Some (PipelineProgress.progressPct s'))
  || value_changed (PipelineProgress.callStatus s) (PipelineProgress.callStatus s')
  || negb (Bool.eqb (PipelineProgress.done s) (PipelineProgress.done s')).

(** Whether the turn of event [e] in page [p] makes React re-render the
    panel. The open and close handlers call [setConnected] when the hook is
    not unmounted; the message handler calls its setters only for a frame
    of a recognized type; a commit calls [setProgressPct(100)] when the
    full-bar effect fires; the timers and the error handler set no
    state. *)
Definition rerenders (e : CallDetailPage.Event) (p : CallDetailPage.Page) : bool :=
  let h := CallDetailPage.hook p in
  match e with
  | CallDetailPage.WsOpen _ =>
      negb (UseWebSocket.unmounted h) && negb (UseWebSocket.connected h)
  | CallDetailPage.WsClose _ =>
      negb (UseWebSocket.unmounted h) && UseWebSocket.connected h
  | CallDetailPage.WsMessage _ f =>
      Protocol.recognized f
      && view_changed
           (CallDetailPage.panel p)
           (fst (Protocol.handle (Some CallDetailPage.handlePipelineComplete) f
                   (CallDetailPage.panel p, CallDetailPage.net p)))
  | CallDetailPage.Render =>
      value_changed
        (Some (PipelineProgress.progressPct (CallDetailPage.panel p)))
        (Some (PipelineProgress.progressPct
                 (PipelineProgress.commit (CallDetailPage.lastDeps p)
                                          (CallDetailPage.panel p))))
  | CallDetailPage.WsError _
  | CallDetailPage.ReconnectTimer _
  | CallDetailPage.SettleTimer => false
  end.

End Rendering.

(* ===================================================================== *)
(** * Properties                                                         *)
(* ===================================================================== *)

(** ** Batch aggregation *)

Section BatchCounts.
Import BatchPage.

Lemma completed_le_total (cs : list BatchCall) : (completed cs <= total cs)%nat.
Proof. unfold completed, total. apply filter_length_le. Qed.

(** A call is counted as completed or as failed, never as both. *)
Lemma terminal_counts_le_total (cs : list BatchCall) :
  (completed cs + failed cs <= total cs)%nat.
Proof.
  unfold completed, failed, total, is_status.
  induction cs as [|c cs IH]; simpl; [lia|].
  destruct (String.eqb_spec (status c) "completed") as [E|_].
  - rewrite E. simpl. lia.
  - destruct (String.eqb (status c) "failed"); simpl; lia.
Qed.

(** C8. For every batch whose statuses are drawn from queued, processing,
    completed and failed, the completed and failed counts together never
    exceed the total, and [hasActive] is true exactly when they are
    strictly below it. *)
Theorem batch_view_invariant (cs : list BatchCall) :
  Forall known_status cs ->
  (completed cs + failed cs <= total cs)%nat
  /\ hasActive cs = (completed cs + failed cs <? total cs)%nat.
Proof.
  intros Hk. split; [apply terminal_counts_le_total|].
  induction Hk as [|c cs Hc _ IH].
  - reflexivity.
  - pose proof (terminal_counts_le_total cs) as Hle.
    unfold hasActive, completed, failed, total, is_status, known_status in *.
    destruct c as [i st sc]; simpl in *.
    destruct Hc as [-> | [-> | [-> | ->]]]; simpl.
    + symmetry. apply Nat.ltb_lt. lia.
    + symmetry. apply Nat.ltb_lt. lia.
    + rewrite IH. reflexivity.
    + rewrite IH. rewrite Nat.add_succ_r. reflexivity.
Qed.

(** The scenario of the specification: five calls, three terminal, two
    still processing. *)
Lemma batch_view_invariant_witness :
  let cs := [mkCall 1 "completed" (Some 80); mkCall 2 "failed" None;
             mkCall 3 "processing" None; mkCall 4 "completed" None;
             mkCall 5 "queued" None] in
  (completed cs + failed cs <= total cs)%nat
  /\ hasActive cs = (completed cs + failed cs <? total cs)%nat.
Proof.
  intro cs. apply (batch_view_invariant cs).
  repeat constructor; unfold known_status; simpl; tauto.
Defined.

End BatchCounts.

Section BatchScheduler.
Import BatchPage.

Lemma autoRefresh_armed (b : Batch) : armed_iff_active (autoRefresh b).
Proof.
  unfold armed_iff_active, autoRefresh.
  destruct (hasActive (calls b)) eqn:E; simpl; rewrite E; reflexivity.
Qed.

Lemma step_keeps_armed (e : Event) (b b' : Batch) :
  armed_iff_active b -> step e b = Some b' -> armed_iff_active b'.
Proof.
  intros Hb Hs. destruct e as [|[data|]]; simpl in Hs.
  - destruct (interval b) eqn:E; inversion Hs; subst.
    unfold armed_iff_active in *; simpl. congruence.
  - destruct (inFlight b); inversion Hs; subst. apply autoRefresh_armed.
  - destruct (inFlight b); inversion Hs; subst.
    unfold armed_iff_active in *; simpl. exact Hb.
Qed.

Lemma run_keeps_armed (es : list Event) :
  forall b b', armed_iff_active b -> run es b = Some b' -> armed_iff_active b'.
Proof.
  induction es as [|e es IH]; simpl; intros b b' Hb Hr.
  - inversion Hr; subst. exact Hb.
  - destruct (step e b) as [b1|] eqn:E; [|discriminate].
    eapply IH; [|exact Hr]. eapply step_keeps_armed; eassumption.
Qed.

(** C9, as the code has it. After every history of interval ticks and
    settled loads the 5000 ms refresh is armed exactly when the list on
    display has an active call; a refresh that loads [data] leaves it armed
    if [data] has an active call and cancelled otherwise; and with the
    schedule cancelled and no load in flight nothing can happen any more.
    (A load still in flight can settle afterwards and arm it again.) *)
Theorem refresh_armed_iff_active (es : list Event) (b : Batch) :
  run es mount = Some b ->
  armed_iff_active b
  /\ (forall data b', refresh data b = Some b' ->
        calls b' = data
        /\ interval b' = if hasActive data then Some 5000 else None)
  /\ (hasActive (calls b) = false ->
        interval b = None
        /\ (inFlight b = 0%nat -> forall e, step e b = None)).
Proof.
  intros Hr.
  assert (Hb : armed_iff_active b).
  { eapply run_keeps_armed; [|exact Hr]. apply autoRefresh_armed. }
  split; [exact Hb|]. split.
  - intros data b'. unfold refresh, run, step.
    destruct (interval b); [|discriminate].
    simpl. intros H; inversion H; subst; clear H.
    unfold autoRefresh; simpl.
    destruct (hasActive data); simpl; split; reflexivity.
  - intros Hn. unfold armed_iff_active in Hb. rewrite Hn in Hb.
    split; [exact Hb|]. intros H0 e.
    destruct e; simpl; rewrite ?Hb, ?H0; reflexivity.
Qed.

(** A first load shows an active batch, then a scheduled refresh finds
    every call terminal: the schedule is cancelled and nothing is left to
    run. *)
Lemma refresh_armed_iff_active_witness :
  let busy := [mkCall 1 "completed" None; mkCall 2 "processing" None] in
  let idle := [mkCall 1 "completed" None; mkCall 2 "failed" None] in
  let b := mkBatch idle None 0 in
  run [Settled (Some busy); Tick; Settled (Some idle)] mount = Some b
  /\ armed_iff_active b
  /\ forall e, step e b = None.
Proof.
  intros busy idle b.
  assert (Hr : run [Settled (Some busy); Tick; Settled (Some idle)] mount = Some b)
    by reflexivity.
  destruct (refresh_armed_iff_active _ _ Hr) as [Ha [_ Hq]].
  split; [exact Hr|]. split; [exact Ha|].
  apply Hq; reflexivity.
Defined.

(** C9 fails as stated: a load that was still in flight when the schedule
    was cancelled settles with an older list and arms the interval again.
    Two ticks start two loads; the later one answers first, with every call
    terminal; the earlier one answers last, with a call still processing. *)
Lemma stale_load_rearms_scheduler :
  let busy := [mkCall 1 "processing" None] in
  let idle := [mkCall 1 "completed" None] in
  exists quiet rearmed,
    run [Settled (Some busy); Tick; Tick; Settled (Some idle)] mount = Some quiet
    /\ hasActive (calls quiet) = false
    /\ interval quiet = None
    /\ step (Settled (Some busy)) quiet = Some rearmed
    /\ interval rearmed = Some 5000.
Proof.
  intros busy idle.
  exists (mkBatch idle None 1), (mkBatch busy (Some 5000) 0).
  repeat split; reflexivity.
Qed.

End BatchScheduler.

Section BatchPercentage.
Import BatchPage.

Lemma agree_upto_100 : agree_upto 100 = true.
Proof. vm_compute. reflexivity. Qed.

Lemma pct_of_upto_100 (c t : nat) :
  (c <= t)%nat -> (t <= 100)%nat ->
  pct_of c t = Some (if below_tie c t then exact_pct c t - 1 else exact_pct c t).
Proof.
  intros Hc Ht.
  pose proof agree_upto_100 as H. unfold agree_upto in H.
  rewrite forallb_forall in H.
  assert (Hin : In t (seq 0 101)) by (apply in_seq; lia).
  specialize (H t Hin). rewrite forallb_forall in H.
  assert (Hin' : In c (seq 0 (S t))) by (apply in_seq; lia).
  specialize (H c Hin'). unfold agrees in H.
  destruct (pct_of c t) as [z|]; [|discriminate].
  apply Z.eqb_eq in H. rewrite H. reflexivity.
Qed.

Lemma unfail_keeps_completed (c : BatchCall) :
  is_status "completed" (unfail c) = is_status "completed" c.
Proof.
  unfold unfail, is_status.
  destruct (String.eqb_spec (status c) "failed") as [E|_]; [|reflexivity].
  rewrite E. reflexivity.
Qed.

Lemma unfail_counts (cs : list BatchCall) :
  completed (map unfail cs) = completed cs /\ total (map unfail cs) = total cs.
Proof.
  unfold completed, total. split; [|apply length_map].
  induction cs as [|c cs IH]; simpl; [reflexivity|].
  rewrite unfail_keeps_completed.
  destruct (is_status "completed" c); simpl; rewrite IH; reflexivity.
Qed.

(** C10, as the code has it. For a batch of at most 100 calls (the page
    size requested) the percentage is [Math.round] of the double precision
    product [(completed / total) * 100]: the exactly rounded
    [100 * completed / total], except with 23 of 40 or 46 of 80 completed,
    where the product falls just below 57.5 and the result is 57. Failed
    calls count for nothing: it is unchanged when they are relabelled as
    processing. An empty batch gives 0. *)
Theorem batch_progress_pct (cs : list BatchCall) :
  (total cs <= 100)%nat ->
  progressPct cs
    = Some (if below_tie (completed cs) (total cs)
            then exact_pct (completed cs) (total cs) - 1
            else exact_pct (completed cs) (total cs))
  /\ progressPct (map unfail cs) = progressPct cs
  /\ progressPct [] = Some 0.
Proof.
  intros Ht. split; [|split].
  - apply pct_of_upto_100; [apply completed_le_total | exact Ht].
  - unfold progressPct. destruct (unfail_counts cs) as [-> ->]. reflexivity.
  - reflexivity.
Qed.

Lemma batch_progress_pct_witness :
  let cs := [mkCall 1 "completed" (Some 80); mkCall 2 "failed" None;
             mkCall 3 "completed" None] in
  progressPct cs = Some 67
  /\ progressPct (map unfail cs) = progressPct cs
  /\ progressPct [] = Some 0.
Proof.
  intro cs. apply (batch_progress_pct cs). simpl. lia.
Defined.

(** C10 fails as stated: with 23 of 40 calls completed,
    [100 * 23 / 40 = 57.5] rounds to 58, and the page shows 57. *)
Lemma batch_progress_pct_not_exact :
  let cs := (repeat (mkCall 0 "completed" None) 23
             ++ repeat (mkCall 0 "failed" None) 17)%list in
  completed cs = 23%nat /\ total cs = 40%nat
  /\ progressPct cs = Some 57
  /\ exact_pct (completed cs) (total cs) = 58.
Proof. vm_compute. repeat split; reflexivity. Qed.

End BatchPercentage.

(** ** The message handler *)

Section Reducer.
Import Js UseWebSocket PipelineProgress Protocol.
Context {W : Type}.
Variable onComplete : option (W -> W).

Lemma handle_object (fs : list (string * JVal)) (s : State) (w : W) :
  handle onComplete (Json (JObj fs)) (s, w)
  = if recognized (Json (JObj fs)) then (applied fs s, called onComplete fs w) else (s, w).
Proof.
  unfold handle, ws_onmessage, try_catch, JSON_parse, onMessage, applied,
    called, recognized, is_progress, is_complete, type_of, call_onComplete,
    on_view, prop, bind, ret, modify.
  destruct (strict_eq_str (assoc "type" fs) "pipeline_progress") eqn:Ep;
    destruct (strict_eq_str (assoc "type" fs) "pipeline_complete") eqn:Ec;
    simpl; try reflexivity;
    destruct onComplete; simpl; try reflexivity;
    destruct s; reflexivity.
Qed.

Lemma handle_unrecognized (f : Frame) (sw : State * W) :
  recognized f = false -> handle onComplete f sw = sw.
Proof.
  intros Hr. destruct sw as [s w].
  destruct f as [|[| b | n | str | items | fs]]; try reflexivity.
  rewrite handle_object, Hr. reflexivity.
Qed.

(** [ws.onmessage] swallows whatever the parse or the callback throws. *)
Lemma ws_onmessage_completes (S : Type) (k : option (JVal -> Eff S unit))
    (f : Frame) (s : S) :
  completes (ws_onmessage k f s) = true.
Proof.
  unfold ws_onmessage, try_catch, bind.
  destruct (JSON_parse f s) as [v s1 | e s1]; [|reflexivity].
  destruct k as [h|]; [|reflexivity].
  destruct (h v s1); reflexivity.
Qed.

Lemma handle_done_monotone (f : Frame) (s : State) (w : W) :
  done (fst (handle onComplete f (s, w))) = is_complete f || done s.
Proof.
  destruct (recognized f) eqn:Hr.
  - destruct f as [|[| b | n | str | items | fs]]; try discriminate.
    rewrite handle_object, Hr. reflexivity.
  - rewrite handle_unrecognized by exact Hr. simpl.
    unfold recognized in Hr. apply orb_false_iff in Hr. destruct Hr as [_ ->].
    reflexivity.
Qed.

Lemma handle_world (f : Frame) (s : State) (w : W) :
  snd (handle onComplete f (s, w))
  = if is_complete f
    then match onComplete with Some k => k w | None => w end
    else w.
Proof.
  destruct (recognized f) eqn:Hr.
  - destruct f as [|[| b | n | str | items | fs]]; try discriminate.
    rewrite handle_object, Hr. reflexivity.
  - rewrite handle_unrecognized by exact Hr. simpl.
    unfold recognized in Hr. apply orb_false_iff in Hr. destruct Hr as [_ ->].
    reflexivity.
Qed.

End Reducer.

Section Terminal.
Import Js UseWebSocket PipelineProgress Protocol.

Lemma nth_error_update_nth {A} (f : A -> A) (l : list A) (i : nat) :
  nth_error (update_nth i f l) i = option_map f (nth_error l i).
Proof.
  revert i. induction l as [|x l IH]; intros [|i]; simpl; try reflexivity.
  apply IH.
Qed.

(** After the cleanup no socket of the hook is connecting or open through
    [wsRef], and an effect run with [enabled = false] opens none. *)
Lemma disabled_hook_not_live (h : Hook) :
  channelState (effect false (cleanup h)) = Idle
  \/ channelState (effect false (cleanup h)) = Closed.
Proof.
  unfold channelState, current, effect, cleanup, readyState. simpl.
  destruct (reconnectTimer h); simpl.
  all: destruct (wsRef h) as [ws|] eqn:Ews; simpl; rewrite ?Ews; auto.
  all: rewrite nth_error_update_nth.
  all: destruct (nth_error (sockets h) ws) as [[]|]; simpl; auto.
Qed.

Lemma deliver_counts (W : Type) (k : W -> W) (fs : list Frame) :
  forall (s : State) (w : W),
    done (fst (deliver (Some k) fs (s, w)))
      = (0 <? count_complete fs)%nat || done s
    /\ snd (deliver (Some k) fs (s, w)) = Nat.iter (count_complete fs) k w.
Proof.
  unfold deliver, count_complete.
  induction fs as [|f fs IH]; intros s w; simpl.
  - split; reflexivity.
  - pose proof (handle_done_monotone (Some k) f s w) as Hd.
    pose proof (handle_world (Some k) f s w) as Hw.
    destruct (handle (Some k) f (s, w)) as [s1 w1]. simpl in Hd, Hw.
    destruct (IH s1 w1) as [IHd IHw]. rewrite IHd, IHw, Hd, Hw.
    destruct (is_complete f); simpl.
    + split; [apply orb_true_r | apply Nat.iter_swap].
    + split; reflexivity.
Qed.

(** C1, as the code has it. Over every sequence of frames that reaches
    the handler: the job is terminal ([done]) from the first complete frame
    on and stays so; the completion callback runs once for each complete
    frame handled, hence exactly once when the sequence has exactly one;
    and once [done] is rendered the subscription is disabled, its socket
    closed and none opened. The handler itself does not look at [done]:
    a frame that still reaches it is applied. *)
Theorem complete_terminal_callback_per_frame
    (W : Type) (k : W -> W) (fs : list Frame) (s : State) (w : W) :
  let out := deliver (Some k) fs (s, w) in
  done (fst out) = (0 <? count_complete fs)%nat || done s
  /\ snd out = Nat.iter (count_complete fs) k w
  /\ (count_complete fs = 1%nat -> snd out = k w)
  /\ (done (fst out) = true ->
      forall h : Hook,
        let h' := effect (enabled (fst out)) (cleanup h) in
        channelState h' = Idle \/ channelState h' = Closed).
Proof.
  intro out. destruct (deliver_counts W k fs s w) as [Hd Hw].
  fold out in Hd, Hw.
  split; [exact Hd|]. split; [exact Hw|]. split.
  - intros H1. rewrite Hw, H1. reflexivity.
  - intros Ht h. unfold enabled. rewrite Ht. apply disabled_hook_not_live.
Qed.

(** The specification's scenario: progress, then one complete frame. *)
Lemma complete_terminal_callback_per_frame_witness :
  let fs := [Json (progress [stage "vad" "Voice activity" "running"] 10);
             Json (complete [] 100 "completed")] in
  let out := deliver (Some S) fs (initial "processing", 0%nat) in
  done (fst out) = true
  /\ snd out = 1%nat
  /\ channelState (effect (enabled (fst out))
                          (cleanup (connect true UseWebSocket.initial))) = Closed.
Proof.
  intros fs out.
  destruct (complete_terminal_callback_per_frame nat S fs
              (initial "processing") 0%nat) as [Hd [_ [H1 Hh]]].
  fold out in Hd, H1, Hh.
  split; [exact Hd|]. split; [apply H1; reflexivity|].
  destruct (Hh Hd (connect true UseWebSocket.initial)) as [Hi|Hc];
    [discriminate Hi | exact Hc].
Defined.

(** C1 fails as stated: the handler has no guard on the terminal state.
    A progress frame handled after a complete one replaces the view, and a
    second complete frame runs the callback a second time. *)
Lemma terminal_state_not_absorbing :
  let s0 := (initial "processing", 0%nat) in
  let c := Json (complete [] 100 "completed") in
  let after_complete := deliver (Some S) [c] s0 in
  let after_late_progress := deliver (Some S) [c; Json (progress [] 30)] s0 in
  let after_second_complete := deliver (Some S) [c; c] s0 in
  done (fst after_complete) = true
  /\ progressPct (fst after_complete) = JNum 100
  /\ snd after_complete = 1%nat
  /\ progressPct (fst after_late_progress) = JNum 30
  /\ callStatus (fst after_late_progress) = Some (JStr "processing")
  /\ snd after_second_complete = 2%nat.
Proof. repeat split; reflexivity. Qed.

End Terminal.

Section Percentage.
Import Js UseWebSocket PipelineProgress Protocol.

Lemma progress_not_complete (f : Frame) :
  is_progress f = true -> is_complete f = false.
Proof.
  unfold is_progress, is_complete, strict_eq_str.
  destruct (type_of f) as [[| | | ty | |]|]; try discriminate.
  intros H. apply String.eqb_eq in H. subst ty. reflexivity.
Qed.

Lemma commit_not_done (d : option (bool * Slot)) (s : State) :
  done s = false -> commit d s = s.
Proof.
  intros Hd. unfold commit, show_full_bar. rewrite Hd. simpl.
  destruct d; [destruct (deps_changed _ _)|]; reflexivity.
Qed.

Lemma clamp_pct_fixes (p : Z) : clamp_pct p = p <-> 0 <= p <= 100.
Proof. unfold clamp_pct. lia. Qed.

(** C2, as the code has it. A progress or complete frame puts its
    [progress_pct] into the view as it is, and 0 when the field is absent
    or null; after a progress frame on a job that is not terminal, that is
    also what the re-render shows. No clamp is applied anywhere, so the
    value shown is the clamped one exactly when the frame's value already
    lies in 0..100. *)
Theorem percentage_is_event_value
    (W : Type) (oc : option (W -> W)) (fs : list (string * JVal))
    (s : State) (w : W) :
  recognized (Json (JObj fs)) = true ->
  progressPct (fst (handle oc (Json (JObj fs)) (s, w)))
    = nullish (assoc "progress_pct" fs) (JNum 0)
  /\ (assoc "progress_pct" fs = None \/ assoc "progress_pct" fs = Some JNull ->
      progressPct (fst (handle oc (Json (JObj fs)) (s, w))) = JNum 0)
  /\ (forall p : Z,
        assoc "progress_pct" fs = Some (JNum p) ->
        progressPct (fst (handle oc (Json (JObj fs)) (s, w))) = JNum p
        /\ (is_progress (Json (JObj fs)) = true -> done s = false ->
            progressPct (fst (receive oc (Json (JObj fs)) (s, w))) = JNum p)
        /\ (JNum p = JNum (clamp_pct p) <-> 0 <= p <= 100)).
Proof.
  intros Hr.
  assert (Hh : handle oc (Json (JObj fs)) (s, w) = (applied fs s, called oc fs w)).
  { rewrite handle_object, Hr. reflexivity. }
  split; [|split].
  - rewrite Hh. reflexivity.
  - rewrite Hh. cbn [fst applied progressPct].
    intros [-> | ->]; reflexivity.
  - intros p Hp. split; [|split].
    + rewrite Hh. simpl. rewrite Hp. reflexivity.
    + intros Hprog Hd. unfold receive. rewrite Hh. cbn [fst snd].
      rewrite commit_not_done.
      * simpl. rewrite Hp. reflexivity.
      * simpl. rewrite (progress_not_complete _ Hprog), Hd. reflexivity.
    + rewrite <- clamp_pct_fixes.
      split; [intros H; injection H as H; congruence | intros E; rewrite E; reflexivity].
Qed.

Lemma percentage_is_event_value_witness :
  let fs := [("type", JStr "pipeline_progress");
             ("stages", JArr [stage "vad" "Voice activity" "running"]);
             ("progress_pct", JNum 10);
             ("call_status", JStr "processing")] in
  let bare := [("type", JStr "pipeline_progress"); ("progress_pct", JNull)] in
  progressPct (fst (handle (W := unit) None (Json (JObj fs)) (initial "queued", tt)))
    = JNum 10
  /\ progressPct (fst (receive (W := unit) None (Json (JObj fs)) (initial "queued", tt)))
    = JNum 10
  /\ progressPct (fst (handle (W := unit) None (Json (JObj bare)) (initial "queued", tt)))
    = JNum 0.
Proof.
  intros fs bare.
  destruct (percentage_is_event_value unit None fs (initial "queued") tt eq_refl)
    as [_ [_ Hn]].
  destruct (Hn 10 eq_refl) as [Hh [Hr _]].
  destruct (percentage_is_event_value unit None bare (initial "queued") tt eq_refl)
    as [_ [H0 _]].
  split; [exact Hh|]. split; [apply Hr; reflexivity|].
  apply H0. right. reflexivity.
Defined.

(** C2 fails as stated: 150 and -5 reach the presentation layer as they
    are, where the clamp would give 100 and 0. *)
Lemma out_of_range_percentage_shown :
  shown [Json (progress [] 150); Json (progress [] (-5))] (initial "processing")
  = [JNum 150; JNum (-5)]
  /\ clamp_pct 150 = 100
  /\ clamp_pct (-5) = 0.
Proof. repeat split; reflexivity. Qed.

Lemma receive_progress (W : Type) (oc : option (W -> W))
    (st : list JVal) (p : Z) (s : State) (w : W) :
  done s = false ->
  receive oc (Json (progress st p)) (s, w)
  = (mkState (JArr st) (JNum p) (Some (JStr "processing")) false, w).
Proof.
  intros Hd. unfold receive, progress, event.
  rewrite handle_object.
  change (recognized _) with true. cbv iota.
  unfold applied, called.
  change (is_complete _) with false.
  cbn [fst snd orb assoc String.eqb Ascii.eqb Bool.eqb nullish].
  rewrite Hd. rewrite commit_not_done by reflexivity. reflexivity.
Qed.

(** C4, as the code has it. While the job is not terminal each progress
    event replaces the percentage by its own: the percentages shown along a
    stream of progress events are the events' values in order, so they are
    non-decreasing exactly when the source sends non-decreasing values. *)
Theorem percentage_follows_stream (ps : list (list JVal * Z)) (s : State) :
  done s = false ->
  shown (progress_frames ps) s = map (fun sp => JNum (snd sp)) ps.
Proof.
  unfold progress_frames.
  revert s. induction ps as [|[st p] ps IH]; intros s Hd; cbn [map shown fst snd].
  - reflexivity.
  - rewrite receive_progress by exact Hd. cbn [fst progressPct].
    f_equal. apply IH. reflexivity.
Qed.

Lemma percentage_follows_stream_witness :
  shown (progress_frames [([], 10); ([], 40); ([], 90)]) (initial "processing")
  = [JNum 10; JNum 40; JNum 90].
Proof.
  apply (percentage_follows_stream [([], 10); ([], 40); ([], 90)]
           (initial "processing")).
  reflexivity.
Defined.

(** C4 fails as stated: on a job that is not terminal, a progress event
    of 30 after one of 50 lowers the percentage shown. *)
Lemma percentage_can_decrease :
  let fs := [Json (progress [] 50); Json (progress [] 30)] in
  shown fs (initial "processing") = [JNum 50; JNum 30]
  /\ done (fst (deliver (W := unit) None fs (initial "processing", tt))) = false
  /\ 30 < 50.
Proof. repeat split; reflexivity. Qed.

End Percentage.

Section Decoder.
Import Js UseWebSocket PipelineProgress Protocol CallDetailPage.

Lemma message_only_when_open (ws : nat) (f : Frame) (p p' : Page) :
  step (WsMessage ws f) p = Some p' ->
  readyState ws (hook p) = Some OPEN
  /\ p' = mkPage (fst (handle (Some handlePipelineComplete) f (panel p, net p)))
                 (lastDeps p) (hook p)
                 (snd (handle (Some handlePipelineComplete) f (panel p, net p))).
Proof.
  unfold step.
  destruct (readyState ws (hook p)) as [[]|]; try discriminate.
  intros H; inversion H; subst. split; reflexivity.
Qed.

(** C5, as the code has it. No frame makes [ws.onmessage] throw. A
    frame that is not JSON, or whose [type] is not [pipeline_progress] or
    [pipeline_complete] (this covers [null], values that are not objects and
    [{"type":"ping"}]), is discarded: the page is left exactly as it was,
    no state setter runs so React does not re-render, and the socket it
    came on stays open. A frame of a recognized type is applied whatever
    its other fields are: the view gets the frame's [stages] ([[]] when
    absent or null), its [progress_pct] (0 when absent or null) and its
    [call_status]. *)
Theorem unrecognized_frame_discarded (ws : nat) (f : Frame) (p p' : Page) :
  step (WsMessage ws f) p = Some p' ->
  completes (ws_onmessage (Some (onMessage (Some handlePipelineComplete))) f
                          (panel p, net p)) = true
  /\ (recognized f = false ->
      p' = p
      /\ Rendering.rerenders (WsMessage ws f) p = false
      /\ readyState ws (hook p') = Some OPEN)
  /\ (forall fs, f = Json (JObj fs) -> recognized f = true ->
        stages (panel p') = nullish (assoc "stages" fs) (JArr [])
        /\ progressPct (panel p') = nullish (assoc "progress_pct" fs) (JNum 0)
        /\ callStatus (panel p') = assoc "call_status" fs).
Proof.
  intros Hs. destruct (message_only_when_open _ _ _ _ Hs) as [Ho ->].
  split; [apply ws_onmessage_completes|]. split.
  - intros Hr. rewrite handle_unrecognized by exact Hr.
    split; [destruct p; reflexivity|]. split; [|exact Ho].
    unfold Rendering.rerenders. rewrite Hr. reflexivity.
  - intros fs -> Hr. cbn [panel]. rewrite handle_object, Hr.
    repeat split.
Qed.

(** The ping scenario, on a panel that has shown one progress event. *)
Lemma unrecognized_frame_discarded_witness :
  exists p,
    run [WsOpen 0; WsMessage 0 (Json (progress [] 10))] (mount "processing") = Some p
    /\ step (WsMessage 0 (Json ping)) p = Some p
    /\ Rendering.rerenders (WsMessage 0 (Json ping)) p = false
    /\ readyState 0 (hook p) = Some OPEN.
Proof.
  let v := eval vm_compute in
    (run [WsOpen 0; WsMessage 0 (Json (progress [] 10))] (mount "processing")) in
  match v with Some ?q => exists q end.
  match goal with |- ?R = Some ?q /\ _ =>
    assert (Hr : R = Some q) by (vm_compute; reflexivity);
    assert (Hs : step (WsMessage 0 (Json ping)) q = Some q)
      by (vm_compute; reflexivity);
    destruct (unrecognized_frame_discarded 0 (Json ping) q q Hs) as [_ [Hd _]]
  end.
  destruct (Hd eq_refl) as [_ [Hn Ho]].
  split; [exact Hr|]. split; [exact Hs|]. split; [exact Hn | exact Ho].
Defined.

(** C5 fails as stated: a frame whose type is recognized is applied even
    when it does not have the recognized shape. One without the other
    fields resets the view; one with a string for [stages] puts that string
    into the view. *)
Lemma shapeless_frame_applied :
  let seen := fst (handle (W := unit) None
                     (Json (progress [stage "vad" "Voice activity" "running"] 10))
                     (initial "processing", tt)) in
  let bare := Json (JObj [("type", JStr "pipeline_progress")]) in
  let odd := Json (JObj [("type", JStr "pipeline_progress");
                         ("stages", JStr "oops")]) in
  progressPct seen = JNum 10
  /\ fst (handle (W := unit) None bare (seen, tt))
     = mkState (JArr []) (JNum 0) None false
  /\ stages (fst (handle (W := unit) None odd (seen, tt))) = JStr "oops".
Proof. repeat split; reflexivity. Qed.

End Decoder.

Section CompleteEvent.
Import Js UseWebSocket PipelineProgress Protocol.

(** C6, as the code has it. A complete frame replaces the view by its
    own fields exactly as a progress frame does (the stages or [[]], the
    percentage or 0, the status) and makes the job terminal. On a job that
    was not terminal the re-render that follows forces the percentage to
    100 exactly when the stage list the frame left is empty, whatever
    percentage the frame carried, and leaves the frame's percentage in
    place otherwise. *)
Theorem complete_fills_bar_on_empty_stages
    (W : Type) (k : W -> W) (rest : list (string * JVal)) (s : State) (w : W) :
  let on_complete :=
    fst (handle (Some k) (Json (JObj (("type", JStr "pipeline_complete") :: rest))) (s, w)) in
  let on_progress :=
    fst (handle (Some k) (Json (JObj (("type", JStr "pipeline_progress") :: rest))) (s, w)) in
  let rendered := commit (Some (deps s)) on_complete in
  stages on_complete = nullish (assoc "stages" rest) (JArr [])
  /\ progressPct on_complete = nullish (assoc "progress_pct" rest) (JNum 0)
  /\ callStatus on_complete = assoc "call_status" rest
  /\ done on_complete = true
  /\ stages on_progress = stages on_complete
  /\ progressPct on_progress = progressPct on_complete
  /\ callStatus on_progress = callStatus on_complete
  /\ done on_progress = done s
  /\ stages rendered = stages on_complete
  /\ callStatus rendered = callStatus on_complete
  /\ done rendered = true
  /\ (done s = false ->
      progressPct rendered
      = if strict_eq_num (length_of (stages on_complete)) 0
        then JNum 100 else progressPct on_complete).
Proof.
  intros on_complete on_progress rendered.
  subst on_complete on_progress rendered.
  rewrite !handle_object.
  change (recognized (Json (JObj (("type", JStr "pipeline_complete") :: rest))))
    with true.
  change (recognized (Json (JObj (("type", JStr "pipeline_progress") :: rest))))
    with true.
  cbv iota. cbn [fst].
  set (c := applied (("type", JStr "pipeline_complete") :: rest) s).
  assert (Hdone : done c = true) by reflexivity.
  assert (Hshow : forall d, commit d c = c \/ commit d c = show_full_bar c).
  { intros [d|]; unfold commit; [destruct (deps_changed d (deps c))|]; auto. }
  assert (Hbar : show_full_bar c
                 = if strict_eq_num (length_of (stages c)) 0
                   then setProgressPct (JNum 100) c else c).
  { unfold show_full_bar. rewrite Hdone. reflexivity. }
  assert (Hst : forall d, stages (commit d c) = stages c
                          /\ callStatus (commit d c) = callStatus c
                          /\ done (commit d c) = true).
  { intros d. destruct (Hshow d) as [-> | ->]; [repeat split; exact Hdone|].
    rewrite Hbar. destruct (strict_eq_num _ 0); repeat split; exact Hdone. }
  split; [reflexivity|]. split; [reflexivity|]. split; [reflexivity|].
  split; [exact Hdone|].
  split; [reflexivity|]. split; [reflexivity|]. split; [reflexivity|].
  split; [reflexivity|].
  split; [apply Hst|]. split; [apply Hst|]. split; [apply Hst|].
  intros Hd. unfold commit, deps_changed, deps. cbn [fst snd].
  rewrite Hd, Hdone. cbn [Bool.eqb negb orb]. rewrite Hbar.
  destruct (strict_eq_num (length_of (stages c)) 0); reflexivity.
Qed.

End CompleteEvent.

Lemma complete_fills_bar_on_empty_stages_witness :
  let rest := [("stages", Js.JArr []); ("progress_pct", Js.JNum 40);
               ("call_status", Js.JStr "failed")] in
  let s := PipelineProgress.initial "processing" in
  let on_complete :=
    fst (Protocol.handle (Some S)
           (UseWebSocket.Json (Js.JObj (("type", Js.JStr "pipeline_complete") :: rest)))
           (s, 0%nat)) in
  PipelineProgress.progressPct on_complete = Js.JNum 40
  /\ PipelineProgress.progressPct
       (PipelineProgress.commit (Some (PipelineProgress.deps s)) on_complete)
     = Js.JNum 100.
Proof.
  intros rest s on_complete.
  destruct (complete_fills_bar_on_empty_stages nat S rest s 0%nat)
    as [_ [Hp [_ [_ [_ [_ [_ [_ [_ [_ [_ H]]]]]]]]]]].
  split; [exact Hp|]. apply H. reflexivity.
Defined.

(** C6 fails as stated: whether 100 is forced does not depend on the
    percentage the complete frame carries. With an empty stage list a
    carried 40 is overwritten by 100, and the effect's condition ([done]
    and [stages.length === 0]) holds for a carried 100 as well; with a
    stage in the list the same 40 is left as it is. *)
Lemma full_bar_forced_by_stage_list :
  let s := PipelineProgress.initial "processing" in
  let handled := fun rest =>
    fst (Protocol.handle (Some S)
           (UseWebSocket.Json (Js.JObj (("type", Js.JStr "pipeline_complete") :: rest)))
           (s, 0%nat)) in
  let shown := fun rest =>
    PipelineProgress.progressPct
      (PipelineProgress.commit (Some (PipelineProgress.deps s)) (handled rest)) in
  let vad := Protocol.stage "vad" "Voice activity" "completed" in
  shown [("stages", Js.JArr []); ("progress_pct", Js.JNum 40);
         ("call_status", Js.JStr "completed")] = Js.JNum 100
  /\ shown [("stages", Js.JArr [vad]); ("progress_pct", Js.JNum 40);
            ("call_status", Js.JStr "completed")] = Js.JNum 40
  /\ (let c := handled [("stages", Js.JArr []); ("progress_pct", Js.JNum 100);
                        ("call_status", Js.JStr "completed")] in
      PipelineProgress.done c
      && Js.strict_eq_num (Js.length_of (PipelineProgress.stages c)) 0) = true.
Proof. vm_compute. repeat split; reflexivity. Qed.

Section Reconciliation.
Import Js UseWebSocket PipelineProgress Protocol CallDetailPage.

Lemma step_fetches (e : Event) (p p' : Page) :
  step e p = Some p' ->
  fetches (net p') = (fetches (net p) + if fetching e then 1 else 0)%nat.
Proof.
  destruct e as [ws | ws f | ws | ws | t | | ]; intros Hs.
  - unfold step in Hs.
    destruct (readyState ws (hook p)) as [[]|]; inversion Hs; simpl; lia.
  - destruct (message_only_when_open _ _ _ _ Hs) as [_ ->].
    cbn [net fetching]. rewrite handle_world.
    destruct (is_complete f); simpl; lia.
  - unfold step in Hs.
    destruct (readyState ws (hook p)) as [[]|]; inversion Hs; simpl; lia.
  - unfold step in Hs.
    destruct (readyState ws (hook p)) as [[]|]; inversion Hs; simpl; lia.
  - unfold step in Hs.
    destruct (timer_pending t (hook p)); inversion Hs; simpl; lia.
  - unfold step in Hs.
    destruct (settleTimers (net p)); inversion Hs; simpl; lia.
  - inversion Hs; simpl; lia.
Qed.

Lemma run_fetches (es : list Event) :
  forall p p', run es p = Some p' ->
    fetches (net p') = (fetches (net p) + count_fetching es)%nat.
Proof.
  unfold count_fetching.
  induction es as [|e es IH]; simpl; intros p p' Hr.
  - inversion Hr; subst. lia.
  - destruct (step e p) as [p1|] eqn:Hs; [|discriminate].
    rewrite (IH _ _ Hr), (step_fetches _ _ _ Hs).
    destruct (fetching e); simpl; lia.
Qed.

(** C3, as the code has it. No handler of the hook fetches: over every
    run of the page the number of result requests grows by one for each
    settle timer that fires and by nothing else, so a run made of socket
    events, reconnect timers, frames and re-renders issues none. In
    particular the open handler of a reconnected socket leaves the page's
    traffic and the view as they are, and the next frame is applied
    directly. The one fetch tied to the stream is the one a complete frame
    schedules, after the 1000 ms settle delay. *)
Theorem reconnect_issues_no_fetch (es : list Event) (p p' : Page) :
  run es p = Some p' ->
  fetches (net p') = (fetches (net p) + count_fetching es)%nat
  /\ (count_fetching es = 0%nat -> fetches (net p') = fetches (net p))
  /\ (forall ws q, step (WsOpen ws) p' = Some q ->
        net q = net p' /\ panel q = panel p')
  /\ (forall ws f q, step (WsMessage ws f) p' = Some q ->
        fetches (net q) = fetches (net p')
        /\ settleTimers (net q)
           = (settleTimers (net p') + if is_complete f then 1 else 0)%nat).
Proof.
  intros Hr. pose proof (run_fetches _ _ _ Hr) as Hf.
  split; [exact Hf|]. split; [intros H0; rewrite Hf, H0; lia|]. split.
  - intros ws q Hs. unfold step in Hs.
    destruct (readyState ws (hook p')) as [[]|]; inversion Hs; split; reflexivity.
  - intros ws f q Hs.
    destruct (message_only_when_open _ _ _ _ Hs) as [_ ->].
    cbn [net]. rewrite handle_world.
    destruct (is_complete f); simpl; split; lia.
Qed.

(** Loss of the channel, the reconnect after 3000 ms, the next frame. *)
Lemma reconnect_issues_no_fetch_witness :
  exists p',
    run [WsOpen 0; WsClose 0; ReconnectTimer 0; WsOpen 1;
         WsMessage 1 (Json (complete [] 100 "completed"))]
        (mount "processing") = Some p'
    /\ fetches (net p') = 1%nat
    /\ settleTimers (net p') = 1%nat.
Proof.
  eexists. split; [reflexivity|].
  match goal with |- fetches (net ?q) = _ /\ _ =>
    destruct (reconnect_issues_no_fetch
                [WsOpen 0; WsClose 0; ReconnectTimer 0; WsOpen 1;
                 WsMessage 1 (Json (complete [] 100 "completed"))]
                (mount "processing") q eq_refl) as [_ [H0 _]]
  end.
  split; [apply H0; reflexivity | reflexivity].
Defined.

(** C3 fails as stated: the channel is lost, the hook reconnects and the
    socket opens, the next progress frame is applied, and between the
    loss and that frame not one request went to the job store. *)
Lemma reconnect_without_snapshot :
  exists lost reopened final,
    run [WsOpen 0; WsMessage 0 (Json (progress [] 10)); WsClose 0]
        (mount "processing") = Some lost
    /\ channelState (hook lost) = Closed
    /\ run [ReconnectTimer 0; WsOpen 1] lost = Some reopened
    /\ channelState (hook reopened) = Open
    /\ step (WsMessage 1 (Json (progress [] 20))) reopened = Some final
    /\ progressPct (panel final) = JNum 20
    /\ fetches (net final) = fetches (net lost).
Proof.
  do 3 eexists.
  split; [reflexivity|]. split; [reflexivity|].
  split; [reflexivity|]. split; [reflexivity|].
  split; [reflexivity|]. split; reflexivity.
Qed.

End Reconciliation.

Section Send.
Import Js UseWebSocket.

(** What [send] does in each channel state. *)
Lemma send_by_channel_state (payload : JVal) (h : Hook) :
  send payload h
  = match channelState h with
    | Open => Transmitted payload
    | Connecting => Raised InvalidStateError
    | Idle | Closed => Dropped
    end.
Proof.
  unfold send, channelState.
  destruct (current h) as [[]|]; reflexivity.
Qed.

(** C7 at its failing input. Right after [connect], before the socket
    has opened, the channel is connecting and [send] does not drop the
    payload: the socket's [send] raises [InvalidStateError], which the hook
    does not catch. *)
Theorem send_while_connecting_raises (payload : JVal) :
  channelState (connect true initial) = Connecting
  /\ send payload (connect true initial) = Raised InvalidStateError.
Proof. split; reflexivity. Qed.

End Send.

(** ** Further properties of the hook *)

Section HookInvariant.
Import Js UseWebSocket CallDetailPage Invariants.

Lemma length_update_nth {A} (f : A -> A) (l : list A) (i : nat) :
  List.length (update_nth i f l) = List.length l.
Proof.
  revert i. induction l as [|x l IH]; intros [|i]; simpl; try reflexivity.
  rewrite IH. reflexivity.
Qed.

Lemma Forall_update_nth {A} (P : A -> Prop) (f : A -> A) (l : list A) (i : nat) :
  (forall x, P x -> P (f x)) -> Forall P l -> Forall P (update_nth i f l).
Proof.
  intros Hf. revert i. induction l as [|x l IH]; intros [|i] Hl; simpl;
    try constructor; inversion Hl; subst; auto.
Qed.

Lemma refs_valid_sockets (h : Hook) (l : list ReadyState) :
  List.length l = List.length (sockets h) ->
  refs_valid h -> refs_valid (set_sockets l h).
Proof.
  intros Hl [Hw [Ht Hd]]. repeat split; simpl; auto.
  intros ws E. rewrite Hl. auto.
Qed.

Lemma refs_valid_ws_close (ws : nat) (h : Hook) :
  refs_valid h -> refs_valid (ws_close ws h).
Proof. apply refs_valid_sockets, length_update_nth. Qed.

Lemma refs_valid_set_socket (ws : nat) (r : ReadyState) (h : Hook) :
  refs_valid h -> refs_valid (set_socket ws r h).
Proof. apply refs_valid_sockets, length_update_nth. Qed.

Lemma refs_valid_clearTimeout (t : nat) (h : Hook) :
  refs_valid h -> refs_valid (clearTimeout t h).
Proof.
  intros [Hw [Ht Hd]]. repeat split; simpl; auto.
  - intros t' E. rewrite length_update_nth. auto.
  - apply Forall_update_nth; auto.
Qed.

Lemma refs_valid_flags (h : Hook) (c u : bool) :
  refs_valid h -> refs_valid (setConnected c (set_unmounted u h)).
Proof. intros [Hw [Ht Hd]]. repeat split; simpl; auto. Qed.

Lemma refs_valid_connect (e : bool) (h : Hook) :
  refs_valid h -> refs_valid (connect e h).
Proof.
  intros [Hw [Ht Hd]]. unfold connect.
  destruct (unmounted h || negb e); [repeat split; auto|].
  repeat split; simpl; auto.
  intros ws E. inversion E; subst. rewrite length_app. simpl. lia.
Qed.

Lemma refs_valid_ws_onopen (h : Hook) :
  refs_valid h -> refs_valid (ws_onopen h).
Proof.
  intros [Hw [Ht Hd]]. unfold ws_onopen.
  destruct (negb (unmounted h)); repeat split; simpl; auto.
Qed.

Lemma refs_valid_ws_onclose (h : Hook) :
  refs_valid h -> refs_valid (ws_onclose h).
Proof.
  intros [Hw [Ht Hd]]. unfold ws_onclose.
  destruct (negb (unmounted h)); [|repeat split; auto].
  repeat split; simpl; auto.
  - intros t E. inversion E; subst. rewrite length_app. simpl. lia.
  - apply Forall_app. split; [exact Hd|]. repeat constructor.
Qed.

Lemma refs_valid_cleanup (h : Hook) :
  refs_valid h -> refs_valid (cleanup h).
Proof.
  intros Hv. unfold cleanup.
  assert (H1 : refs_valid (set_unmounted true h)).
  { destruct Hv as [Hw [Ht Hd]]. repeat split; simpl; auto. }
  set (h1 := set_unmounted true h) in *.
  assert (H2 : refs_valid (match reconnectTimer h1 with
                           | Some t => clearTimeout t h1
                           | None => h1
                           end)).
  { destruct (reconnectTimer h1); [apply refs_valid_clearTimeout|]; exact H1. }
  destruct (wsRef _); [apply refs_valid_ws_close|]; exact H2.
Qed.

Lemma refs_valid_effect (e : bool) (h : Hook) :
  refs_valid h -> refs_valid (effect e h).
Proof.
  intros Hv. unfold effect.
  assert (H1 : refs_valid (set_unmounted false h)).
  { destruct Hv as [Hw [Ht Hd]]. repeat split; simpl; auto. }
  destruct e; [apply refs_valid_connect|]; exact H1.
Qed.

Lemma refs_valid_initial : refs_valid UseWebSocket.initial.
Proof. repeat split; simpl; try discriminate. constructor. Qed.

Lemma step_refs_valid (e : Event) (p p' : Page) :
  refs_valid (hook p) -> step e p = Some p' -> refs_valid (hook p').
Proof.
  intros Hv Hs. destruct e as [ws | ws f | ws | ws | t | | ]; unfold step in Hs.
  - destruct (readyState ws (hook p)) as [[]|]; inversion Hs; subst; simpl.
    apply refs_valid_ws_onopen, refs_valid_set_socket, Hv.
  - destruct (readyState ws (hook p)) as [[]|]; inversion Hs; subst; simpl.
    exact Hv.
  - destruct (readyState ws (hook p)) as [[]|]; inversion Hs; subst; simpl;
      apply refs_valid_ws_close, Hv.
  - destruct (readyState ws (hook p)) as [[]|]; inversion Hs; subst; simpl;
      apply refs_valid_ws_onclose, refs_valid_set_socket, Hv.
  - destruct (timer_pending t (hook p)); inversion Hs; subst; simpl.
    apply refs_valid_connect, refs_valid_clearTimeout, Hv.
  - destruct (settleTimers (net p)); inversion Hs; subst; simpl. exact Hv.
  - inversion Hs; subst; simpl.
    apply refs_valid_effect, refs_valid_cleanup, Hv.
Qed.

Lemma run_refs_valid (es : list Event) :
  forall p p', refs_valid (hook p) -> run es p = Some p' -> refs_valid (hook p').
Proof.
  induction es as [|e es IH]; simpl; intros p p' Hv Hr.
  - inversion Hr; subst. exact Hv.
  - destruct (step e p) as [p1|] eqn:Hs; [|discriminate].
    eapply IH; [|exact Hr]. eapply step_refs_valid; eassumption.
Qed.

(** X1. In every state the page reaches from its mount, [wsRef] is null
    or names a socket the hook constructed, [reconnectTimer] is null or
    names a timer it set, and every timer it set has the 3000 ms delay.
    So the channel is idle exactly while [wsRef] is null. *)
Theorem hook_refs_stay_valid (es : list Event) (initialStatus : string) (p : Page) :
  run es (mount initialStatus) = Some p ->
  refs_valid (hook p)
  /\ (channelState (hook p) = Idle <-> wsRef (hook p) = None).
Proof.
  intros Hr.
  assert (Hv : refs_valid (hook p)).
  { eapply run_refs_valid; [|exact Hr]. simpl.
    apply refs_valid_effect, refs_valid_initial. }
  split; [exact Hv|].
  destruct Hv as [Hw _]. unfold channelState, current, readyState.
  destruct (wsRef (hook p)) as [ws|] eqn:E.
  - specialize (Hw ws eq_refl).
    destruct (nth_error (sockets (hook p)) ws) as [r|] eqn:En.
    + split; [destruct r; discriminate | discriminate].
    + apply nth_error_None in En. lia.
  - split; reflexivity.
Qed.

Lemma hook_refs_stay_valid_witness :
  exists p,
    run [WsOpen 0; WsClose 0; ReconnectTimer 0; Render] (mount "queued") = Some p
    /\ refs_valid (hook p)
    /\ wsRef (hook p) = Some 2%nat
    /\ channelState (hook p) = Connecting.
Proof.
  let v := eval vm_compute in
    (run [WsOpen 0; WsClose 0; ReconnectTimer 0; Render] (mount "queued")) in
  match v with Some ?q => exists q end.
  match goal with |- _ = Some ?q /\ _ =>
    assert (Hr : run [WsOpen 0; WsClose 0; ReconnectTimer 0; Render]
                     (mount "queued") = Some q) by (vm_compute; reflexivity);
    destruct (hook_refs_stay_valid _ _ _ Hr) as [Hv _]
  end.
  split; [exact Hr|]. split; [exact Hv|]. split; reflexivity.
Defined.

End HookInvariant.

Section HookTeardown.
Import Js UseWebSocket CallDetailPage.

Lemma cleanup_unmounted (h : Hook) : unmounted (cleanup h) = true.
Proof.
  unfold cleanup. simpl.
  destruct (reconnectTimer h); simpl; destruct (wsRef h); reflexivity.
Qed.

Lemma cleanup_timer_cleared (h : Hook) (t : nat) :
  reconnectTimer (cleanup h) = Some t -> timer_pending t (cleanup h) = false.
Proof.
  unfold cleanup, timer_pending. simpl.
  destruct (reconnectTimer h) as [t0|] eqn:E; simpl.
  - destruct (wsRef h); simpl; rewrite E; intros H; inversion H; subst;
      rewrite nth_error_update_nth;
      destruct (nth_error (timers h) t); reflexivity.
  - destruct (wsRef h); simpl; rewrite E; discriminate.
Qed.

(** X2. After the hook's cleanup (unmount, or the teardown before a
    re-run of the effect) and until the effect runs again, late events
    find a torn-down hook: [connect] opens nothing whatever [enabled] is,
    the open and close handlers change nothing (no reconnect is
    scheduled), and the reconnect timer the hook was holding is
    cancelled. *)
Theorem torn_down_hook_is_inert (h : Hook) (enabled : bool) :
  unmounted (cleanup h) = true
  /\ connect enabled (cleanup h) = cleanup h
  /\ ws_onopen (cleanup h) = cleanup h
  /\ ws_onclose (cleanup h) = cleanup h
  /\ (forall t, reconnectTimer (cleanup h) = Some t ->
        timer_pending t (cleanup h) = false).
Proof.
  pose proof (cleanup_unmounted h) as Hu.
  split; [exact Hu|]. split; [|split; [|split]].
  - unfold connect. rewrite Hu. reflexivity.
  - unfold ws_onopen. rewrite Hu. reflexivity.
  - unfold ws_onclose. rewrite Hu. reflexivity.
  - apply cleanup_timer_cleared.
Qed.

Lemma torn_down_hook_is_inert_witness :
  let h := ws_onclose (connect true UseWebSocket.initial) in
  reconnectTimer (cleanup h) = Some 0%nat
  /\ timer_pending 0 h = true
  /\ timer_pending 0 (cleanup h) = false.
Proof.
  intro h.
  destruct (torn_down_hook_is_inert h true) as [_ [_ [_ [_ Ht]]]].
  split; [reflexivity|]. split; [reflexivity|]. apply Ht. reflexivity.
Defined.

End HookTeardown.

(** ** Further properties of the progress panel *)

Section Panel.
Import Js UseWebSocket PipelineProgress Protocol PanelRender.

(** X4. A panel mounted with a terminal initial status ([completed] or
    [failed]) is done at once, shows a full bar, and opens no socket; with
    any other status it is not done, shows 0 and has exactly one socket,
    connecting. It is hidden only for [completed]. In both cases the page
    has issued its one fetch. *)
Theorem mount_by_initial_status (initialStatus : string) :
  let p := CallDetailPage.mount initialStatus in
  let terminal := String.eqb initialStatus "completed"
                  || String.eqb initialStatus "failed" in
  done (CallDetailPage.panel p) = terminal
  /\ progressPct (CallDetailPage.panel p) = (if terminal then JNum 100 else JNum 0)
  /\ sockets (CallDetailPage.hook p) = (if terminal then [] else [CONNECTING])
  /\ channelState (CallDetailPage.hook p) = (if terminal then Idle else Connecting)
  /\ hidden initialStatus (CallDetailPage.panel p)
     = String.eqb initialStatus "completed"
  /\ CallDetailPage.fetches (CallDetailPage.net p) = 1%nat.
Proof.
  unfold CallDetailPage.mount, PipelineProgress.initial, hidden, commit,
    show_full_bar, enabled, effect, connect.
  cbn [done stages progressPct callStatus CallDetailPage.panel
       CallDetailPage.hook CallDetailPage.net].
  destruct (String.eqb initialStatus "completed");
    destruct (String.eqb initialStatus "failed"); repeat split; reflexivity.
Qed.

Lemma show_full_bar_deps (s : State) : deps (show_full_bar s) = deps s.
Proof.
  unfold show_full_bar.
  destruct (done s && strict_eq_num (length_of (stages s)) 0); reflexivity.
Qed.

Lemma show_full_bar_idempotent (s : State) :
  show_full_bar (show_full_bar s) = show_full_bar s.
Proof.
  unfold show_full_bar.
  destruct (done s && strict_eq_num (length_of (stages s)) 0) eqn:E;
    [|rewrite E; reflexivity].
  cbn [setProgressPct done stages]. rewrite E. reflexivity.
Qed.

(** X5. The full-bar effect settles in one run. It never touches its own
    dependencies, and the re-render its [setProgressPct(100)] causes
    changes nothing: committing again after a commit gives the same state,
    whatever the earlier dependencies were. *)
Theorem commit_settles (d : option (bool * Slot)) (s : State) :
  deps (commit d s) = deps s
  /\ commit (Some (deps s)) (commit d s) = commit d s
  /\ stages (commit d s) = stages s
  /\ callStatus (commit d s) = callStatus s
  /\ done (commit d s) = done s.
Proof.
  assert (Hc : commit d s = s \/ commit d s = show_full_bar s).
  { unfold commit. destruct d as [d|]; [destruct (deps_changed d (deps s))|]; auto. }
  assert (Hk : stages (show_full_bar s) = stages s
               /\ callStatus (show_full_bar s) = callStatus s
               /\ done (show_full_bar s) = done s).
  { unfold show_full_bar.
    destruct (done s && strict_eq_num (length_of (stages s)) 0); repeat split. }
  assert (Hagain : forall x, deps x = deps s -> show_full_bar x = x ->
                     commit (Some (deps s)) x = x).
  { intros x Hd Hx. unfold commit. rewrite Hd.
    destruct (deps_changed (deps s) (deps s)); [exact Hx | reflexivity]. }
  destruct Hc as [-> | ->].
  - split; [reflexivity|]. split; [|repeat split].
    unfold commit. destruct (deps_changed (deps s) (deps s)) eqn:E; [|reflexivity].
    (* a dependency that never compares equal is a reference, not the number 0 *)
    unfold show_full_bar. destruct (done s) eqn:Ed; [|reflexivity].
    cbn [andb].
    destruct (strict_eq_num (length_of (stages s)) 0) eqn:El; [|reflexivity].
    exfalso. unfold deps_changed, deps in E. cbn [fst snd] in E.
    rewrite Bool.eqb_reflx in E. cbn [negb orb] in E.
    unfold strict_eq_num in El.
    destruct (length_of (stages s)) as [[| | n | | |]|]; try discriminate.
    cbn [same_value] in E. rewrite Z.eqb_refl in E. discriminate.
  - split; [apply show_full_bar_deps|]. split; [|exact Hk].
    apply Hagain; [apply show_full_bar_deps | apply show_full_bar_idempotent].
Qed.

(** X6. Once a complete frame has been handled the header badge reads
    Complete exactly when the frame's [call_status] is the string
    [completed], and Failed for every other or missing value; the bar is
    red exactly when it is [failed]; the waiting line is gone. *)
Theorem badge_after_complete
    (W : Type) (oc : option (W -> W)) (fs : list (string * JVal))
    (s : State) (w : W) (connected : bool) :
  is_complete (Json (JObj fs)) = true ->
  let s' := fst (handle oc (Json (JObj fs)) (s, w)) in
  badge connected s'
    = (if strict_eq_str (assoc "call_status" fs) "completed"
       then Complete else Failed)
  /\ bar_red s' = strict_eq_str (assoc "call_status" fs) "failed"
  /\ placeholder s' = false.
Proof.
  intros Hc s'. subst s'. rewrite handle_object.
  unfold recognized. rewrite Hc, orb_true_r. cbn [fst].
  unfold badge, bar_red, placeholder, applied.
  cbn [done callStatus stages]. rewrite Hc. cbn [orb negb].
  repeat split. apply andb_false_r.
Qed.

Lemma badge_after_complete_witness :
  let fs := [("type", JStr "pipeline_complete"); ("progress_pct", JNum 40)] in
  let s' := fst (handle (W := unit) None (Json (JObj fs)) (initial "processing", tt)) in
  badge true s' = Failed /\ bar_red s' = false /\ placeholder s' = false.
Proof.
  intros fs s'.
  exact (badge_after_complete unit None fs (initial "processing") tt true eq_refl).
Defined.

(** X7. A stage's icon is drawn in the colour of its status text, for
    every status value: green check for [completed], indigo spinner for
    [running], red cross for [failed], and the grey circle for anything
    else (including [pending] and a missing status). *)
Theorem stage_icon_matches_text (status : Slot) :
  snd (StageIcon status) = stageColor status
  /\ (fst (StageIcon status) = Circle <->
      strict_eq_str status "completed" = false
      /\ strict_eq_str status "running" = false
      /\ strict_eq_str status "failed" = false).
Proof.
  unfold StageIcon, stageColor.
  destruct (strict_eq_str status "completed");
    destruct (strict_eq_str status "running");
    destruct (strict_eq_str status "failed"); cbn [fst snd];
    (split; [reflexivity | split; [intros H; try discriminate H; auto
                                  | intros [H1 [H2 H3]]; try discriminate; reflexivity]]).
Qed.

(** X8. A frame of a recognized type replaces the view without merging:
    the stages, percentage and status it leaves do not depend on what the
    view held before. Only [done] carries over. *)
Theorem replacement_ignores_history
    (W : Type) (oc : option (W -> W)) (f : Frame) (s1 s2 : State) (w : W) :
  recognized f = true ->
  let a := fst (handle oc f (s1, w)) in
  let b := fst (handle oc f (s2, w)) in
  stages a = stages b
  /\ progressPct a = progressPct b
  /\ callStatus a = callStatus b
  /\ done a = (is_complete f || done s1).
Proof.
  intros Hr a b. subst a b.
  destruct f as [|[| x | n | str | items | fs]]; try discriminate.
  rewrite !handle_object, Hr. cbn [fst]. repeat split.
Qed.

Lemma replacement_ignores_history_witness :
  let f := Json (progress [] 30) in
  let seen := fst (handle (W := unit) None
                     (Json (progress [stage "vad" "Voice activity" "running"] 80))
                     (initial "processing", tt)) in
  progressPct (fst (handle (W := unit) None f (seen, tt)))
  = progressPct (fst (handle (W := unit) None f (initial "queued", tt))).
Proof.
  intros f seen.
  destruct (replacement_ignores_history unit None f seen (initial "queued") tt eq_refl)
    as [_ [H _]].
  exact H.
Defined.

End Panel.

(** ** Further properties of the call page *)

Section CallDetail.
Import Js UseWebSocket PipelineProgress Protocol CallDetailPage CallDetailView
  Invariants.

Lemma falsy_has_no_status (data : Slot) :
  truthy data = false -> optional_prop data "status" = None.
Proof. destruct data as [[| b | n | s | l | fs]|]; simpl; congruence. Qed.

(** X9. The "Call not found or results unavailable" card is never
    rendered. Whatever [data] holds, if it is falsy (still [null], or an
    empty body) the status defaults to [queued], so the page shows the
    progress panel instead. *)
Theorem not_found_card_never_shown (data : Slot) :
  shows_not_found data = false
  /\ (truthy data = false ->
      callStatus data = JStr "queued" /\ shows_panel data = true).
Proof.
  assert (H : truthy data = false ->
              callStatus data = JStr "queued" /\ shows_panel data = true).
  { intros Hf. unfold shows_panel, isProcessing, callStatus.
    rewrite (falsy_has_no_status _ Hf). split; reflexivity. }
  split; [|exact H].
  unfold shows_not_found. destruct (truthy data) eqn:E; [reflexivity|].
  destruct (H eq_refl) as [_ Hp]. unfold shows_panel in Hp. rewrite Hp. reflexivity.
Qed.

Lemma not_found_card_never_shown_witness :
  shows_panel (data (settle Rejected CallDetailView.initial)) = true
  /\ shows_not_found (data (settle Rejected CallDetailView.initial)) = false.
Proof.
  destruct (not_found_card_never_shown (data (settle Rejected CallDetailView.initial)))
    as [Hn Hp].
  split; [apply Hp; reflexivity | exact Hn].
Defined.

(** X10. Whenever the page renders the progress panel, the status it
    passes is [queued] or [processing], so the panel starts not done, is
    visible, and has opened its socket. *)
Theorem panel_mounts_live (data : Slot) :
  shows_panel data = true ->
  exists st,
    callStatus data = JStr st
    /\ (st = "queued" \/ st = "processing")
    /\ done (panel (mount st)) = false
    /\ PanelRender.hidden st (panel (mount st)) = false
    /\ channelState (hook (mount st)) = Connecting.
Proof.
  unfold shows_panel, isProcessing, strict_eq_str.
  destruct (callStatus data) as [| b | n | st | l | fs] eqn:E; try discriminate.
  intros H. exists st. split; [reflexivity|].
  apply orb_true_iff in H.
  destruct H as [H|H]; apply String.eqb_eq in H; subst st;
    (split; [auto|]); repeat split; reflexivity.
Qed.

Lemma panel_mounts_live_witness :
  exists st,
    callStatus (Some (JObj [("call_id", JNum 7); ("status", JStr "processing")]))
      = JStr st
    /\ channelState (hook (mount st)) = Connecting.
Proof.
  destruct (panel_mounts_live
              (Some (JObj [("call_id", JNum 7); ("status", JStr "processing")]))
              eq_refl) as [st [Hs [_ [_ [_ Hc]]]]].
  exists st. split; [exact Hs | exact Hc].
Defined.

Lemma step_conserves (e : Event) (p p' : Page) :
  step e p = Some p' ->
  (fetches (net p') + settleTimers (net p'))%nat
  = (fetches (net p) + settleTimers (net p) + if scheduling e then 1 else 0)%nat.
Proof.
  destruct e as [ws | ws f | ws | ws | t | | ]; intros Hs.
  - unfold step in Hs.
    destruct (readyState ws (hook p)) as [[]|]; inversion Hs; simpl; lia.
  - destruct (message_only_when_open _ _ _ _ Hs) as [_ ->].
    cbn [net scheduling]. rewrite handle_world.
    destruct (is_complete f); simpl; lia.
  - unfold step in Hs.
    destruct (readyState ws (hook p)) as [[]|]; inversion Hs; simpl; lia.
  - unfold step in Hs.
    destruct (readyState ws (hook p)) as [[]|]; inversion Hs; simpl; lia.
  - unfold step in Hs.
    destruct (timer_pending t (hook p)); inversion Hs; simpl; lia.
  - unfold step in Hs.
    destruct (settleTimers (net p)) eqn:E; inversion Hs; simpl; lia.
  - inversion Hs; simpl; lia.
Qed.

(** X11. Every complete frame handled leads to exactly one follow-up
    fetch, pending or issued: along any run, the fetches issued plus the
    settle timers still waiting grow by one per complete frame handled and
    by nothing else. Nothing is retried and nothing is dropped. *)
Theorem one_followup_per_complete (es : list Event) (p p' : Page) :
  run es p = Some p' ->
  (fetches (net p') + settleTimers (net p'))%nat
  = (fetches (net p) + settleTimers (net p) + count_scheduling es)%nat.
Proof.
  unfold count_scheduling. revert p.
  induction es as [|e es IH]; simpl; intros p Hr.
  - inversion Hr; subst. lia.
  - destruct (step e p) as [p1|] eqn:Hs; [|discriminate].
    rewrite (IH _ Hr), (step_conserves _ _ _ Hs).
    destruct (scheduling e); simpl; lia.
Qed.

Lemma one_followup_per_complete_witness :
  exists p',
    run [WsOpen 0; WsMessage 0 (Json (progress [] 50));
         WsMessage 0 (Json (complete [] 100 "completed")); SettleTimer]
        (mount "processing") = Some p'
    /\ (fetches (net p') + settleTimers (net p'))%nat = 2%nat.
Proof.
  let v := eval vm_compute in
    (run [WsOpen 0; WsMessage 0 (Json (progress [] 50));
          WsMessage 0 (Json (complete [] 100 "completed")); SettleTimer]
         (mount "processing")) in
  match v with Some ?q => exists q end.
  match goal with |- ?R = Some ?q /\ _ =>
    assert (Hr : R = Some q) by (vm_compute; reflexivity);
    pose proof (one_followup_per_complete _ _ _ Hr) as Hc
  end.
  split; [exact Hr | exact Hc].
Defined.

End CallDetail.

(** ** Further properties of the batch page *)

Section BatchFetching.
Import BatchPage BatchFetch Invariants.

Lemma enrich_keeps (results : Z -> ScoreResponse) (c : BatchCall) :
  id (enrich results c) = id c /\ status (enrich results c) = status c.
Proof.
  unfold enrich. destruct (is_status "completed" c); [|split; reflexivity].
  destruct (results (id c)); split; reflexivity.
Qed.

Lemma enrich_is_status (results : Z -> ScoreResponse) (lit : string) (c : BatchCall) :
  is_status lit (enrich results c) = is_status lit c.
Proof. unfold is_status. destruct (enrich_keeps results c) as [_ ->]. reflexivity. Qed.

Lemma filter_map_enrich (results : Z -> ScoreResponse) (lit : string)
    (cs : list BatchCall) :
  List.length (filter (is_status lit) (map (enrich results) cs))
  = List.length (filter (is_status lit) cs).
Proof.
  induction cs as [|c cs IH]; simpl; [reflexivity|].
  rewrite enrich_is_status. destruct (is_status lit c); simpl; rewrite IH; reflexivity.
Qed.

Lemma hasActive_map_enrich (results : Z -> ScoreResponse) (cs : list BatchCall) :
  hasActive (map (enrich results) cs) = hasActive cs.
Proof.
  unfold hasActive. induction cs as [|c cs IH]; simpl; [reflexivity|].
  rewrite !enrich_is_status, IH. reflexivity.
Qed.

(** X12. Fetching the scores never changes what the batch counts see.
    Whatever the score requests answer, [fetchBatchCalls] returns the
    server's calls in order with their ids and statuses, so the total, the
    completed and failed counts, [hasActive] and the percentage are those of
    the raw list; a call that is not completed, or whose score request was
    not ok or threw, comes back as it was. *)
Theorem enrichment_preserves_counts
    (cs : list BatchCall) (results : Z -> ScoreResponse) :
  let out := fetchBatchCalls (ListOk (Some cs)) results in
  map id out = map id cs
  /\ map status out = map status cs
  /\ total out = total cs
  /\ completed out = completed cs
  /\ failed out = failed cs
  /\ hasActive out = hasActive cs
  /\ progressPct out = progressPct cs
  /\ (forall c, In c cs ->
        is_status "completed" c = false
        \/ results (id c) = ScoreNotOk \/ results (id c) = ScoreThrew ->
        enrich results c = c).
Proof.
  intro out. subst out. unfold fetchBatchCalls.
  assert (Hc : completed (map (enrich results) cs) = completed cs)
    by apply filter_map_enrich.
  assert (Ht : total (map (enrich results) cs) = total cs)
    by apply length_map.
  split; [|split; [|split; [|split; [|split; [|split; [|split]]]]]].
  - rewrite map_map. apply map_ext. intros c. apply enrich_keeps.
  - rewrite map_map. apply map_ext. intros c. apply enrich_keeps.
  - exact Ht.
  - exact Hc.
  - apply filter_map_enrich.
  - apply hasActive_map_enrich.
  - unfold progressPct. rewrite Hc, Ht. reflexivity.
  - intros c _ H. unfold enrich.
    destruct (is_status "completed" c); [|reflexivity].
    destruct H as [H | [-> | ->]]; [discriminate | reflexivity | reflexivity].
Qed.

Lemma enrichment_preserves_counts_witness :
  let cs := [mkCall 1 "completed" None; mkCall 2 "completed" None;
             mkCall 3 "processing" None] in
  let results := fun i => if i =? 1 then ScoreOk (Some 82) else ScoreThrew in
  fetchBatchCalls (ListOk (Some cs)) results
  = [mkCall 1 "completed" (Some 82); mkCall 2 "completed" None;
     mkCall 3 "processing" None]
  /\ enrich results (mkCall 2 "completed" None) = mkCall 2 "completed" None.
Proof.
  intros cs results.
  destruct (enrichment_preserves_counts cs results) as [_ [_ [_ [_ [_ [_ [_ H]]]]]]].
  split; [reflexivity|].
  apply H; [right; left; reflexivity | right; right; reflexivity].
Defined.

Lemma run_gives_step (e : Event) (b b' : Batch) :
  step e b = Some b' -> run [e] b = Some b'.
Proof. intros H. simpl. rewrite H. reflexivity. Qed.

(** X13. A list request that is not [ok] (a 401, a 500) empties the
    page and ends the polling: when it settles, the view has no calls, the
    interval is cancelled, the bar reads 0 and the caption no longer says
    auto-refreshing; with no other load in flight nothing will happen
    again. A body without [calls] does the same. *)
Theorem failed_list_request_stops_polling
    (b b' : Batch) (res : ListResponse) (results : Z -> ScoreResponse) :
  res = ListNotOk \/ res = ListOk None ->
  step (Settled (Some (fetchBatchCalls res results))) b = Some b' ->
  calls b' = []
  /\ interval b' = None
  /\ progressPct (calls b') = Some 0
  /\ inProgress (calls b') = 0%nat
  /\ (inFlight b' = 0%nat -> forall e, step e b' = None).
Proof.
  intros Hres Hs.
  assert (Hf : fetchBatchCalls res results = [])
    by (destruct Hres as [-> | ->]; reflexivity).
  rewrite Hf in Hs. simpl in Hs.
  destruct (inFlight b) as [|k]; [discriminate|].
  inversion Hs; subst; clear Hs. cbn.
  repeat split. intros H0 e. destruct e; simpl; rewrite ?H0; reflexivity.
Qed.

Lemma failed_list_request_stops_polling_witness :
  let busy := [mkCall 1 "processing" None] in
  exists b b',
    run [Settled (Some busy); Tick] mount = Some b
    /\ interval b = Some 5000
    /\ step (Settled (Some (fetchBatchCalls ListNotOk (fun _ => ScoreNotOk)))) b
       = Some b'
    /\ interval b' = None
    /\ forall e, step e b' = None.
Proof.
  intro busy.
  exists (mkBatch busy (Some 5000) 1), (mkBatch [] None 0).
  split; [reflexivity|]. split; [reflexivity|]. split; [reflexivity|].
  destruct (failed_list_request_stops_polling
              (mkBatch busy (Some 5000) 1) (mkBatch [] None 0)
              ListNotOk (fun _ => ScoreNotOk) (or_introl eq_refl) eq_refl)
    as [_ [Hi [_ [_ Hq]]]].
  split; [exact Hi | apply Hq; reflexivity].
Defined.

Lemma total_splits (cs : list BatchCall) :
  total cs = (completed cs + failed cs + List.length (filter unfinished cs))%nat.
Proof.
  unfold total, completed, failed, unfinished, is_status.
  induction cs as [|c cs IH]; cbn [filter List.length]; [reflexivity|].
  destruct (String.eqb_spec (status c) "completed") as [E|_].
  - rewrite E. cbn [String.eqb Ascii.eqb Bool.eqb negb andb List.length]. lia.
  - destruct (String.eqb (status c) "failed");
      cbn [negb andb List.length]; lia.
Qed.

Lemma inProgress_counts (cs : list BatchCall) :
  inProgress cs = List.length (filter unfinished cs).
Proof. unfold inProgress. rewrite (total_splits cs). lia. Qed.

Lemma hasActive_unfinished (cs : list BatchCall) :
  hasActive cs = true -> (0 < List.length (filter unfinished cs))%nat.
Proof.
  unfold hasActive, unfinished, is_status.
  induction cs as [|c cs IH]; simpl; [discriminate|].
  destruct (String.eqb_spec (status c) "queued") as [E|_].
  - rewrite E. simpl. lia.
  - destruct (String.eqb_spec (status c) "processing") as [E|_].
    + rewrite E. simpl. lia.
    + simpl. intros H. specialize (IH H).
      destruct (negb _ && negb _); simpl; lia.
Qed.

Lemma known_unfinished_active (cs : list BatchCall) :
  Forall known_status cs ->
  (0 < List.length (filter unfinished cs))%nat -> hasActive cs = true.
Proof.
  unfold hasActive, unfinished, is_status, known_status.
  induction 1 as [|c cs Hc _ IH]; cbn [filter List.length existsb]; [lia|].
  destruct Hc as [E | [E | [E | E]]]; rewrite E;
    cbn [String.eqb Ascii.eqb Bool.eqb negb andb orb List.length];
    auto.
Qed.

(** X14. The count behind the caption, [inProgress], is the number of
    calls that are neither completed nor failed, for any statuses. Whenever
    the refresh interval is armed that count is positive, so the caption
    "Auto-refreshing every 5 s" is shown; and with statuses from the known
    four the caption is shown only then. *)
Theorem caption_follows_scheduler (es : list Event) (b : Batch) :
  run es mount = Some b ->
  inProgress (calls b) = List.length (filter unfinished (calls b))
  /\ (interval b <> None -> (0 < inProgress (calls b))%nat)
  /\ (Forall known_status (calls b) ->
      (0 < inProgress (calls b))%nat -> interval b = Some 5000).
Proof.
  intros Hr.
  assert (Ha : armed_iff_active b).
  { eapply run_keeps_armed; [|exact Hr]. apply autoRefresh_armed. }
  unfold armed_iff_active in Ha.
  split; [apply inProgress_counts|]. split.
  - intros Hi. rewrite inProgress_counts. apply hasActive_unfinished.
    destruct (hasActive (calls b)); [reflexivity | contradiction].
  - intros Hk Hp. rewrite (known_unfinished_active _ Hk) in Ha; [exact Ha|].
    rewrite <- inProgress_counts. exact Hp.
Qed.

Lemma caption_follows_scheduler_witness :
  let odd := [mkCall 1 "completed" None; mkCall 2 "cancelled" None] in
  exists b,
    run [Settled (Some odd)] mount = Some b
    /\ inProgress (calls b) = 1%nat
    /\ interval b = None.
Proof.
  intro odd. exists (mkBatch odd None 0).
  assert (Hr : run [Settled (Some odd)] mount = Some (mkBatch odd None 0))
    by reflexivity.
  destruct (caption_follows_scheduler _ _ Hr) as [Hc _].
  split; [exact Hr|]. split; [rewrite Hc; reflexivity | reflexivity].
Defined.

End BatchFetching.

Section BatchBar.
Import BatchPage Invariants.

Lemma bar_ok_upto_100 : bar_ok_upto 100 = true.
Proof. vm_compute. reflexivity. Qed.

Lemma bar_ok_upto_spec (n : nat) :
  bar_ok_upto n = true ->
  forall c t, (c <= t)%nat -> (0 < t)%nat -> (t <= n)%nat -> bar_ok c t = true.
Proof.
  unfold bar_ok_upto. intros H c t Hc H0 Ht.
  rewrite forallb_forall in H.
  destruct t as [|t]; [lia|].
  assert (Hin : In t (seq 0 n)) by (apply in_seq; lia).
  specialize (H t Hin). rewrite forallb_forall in H.
  apply H. apply in_seq. lia.
Qed.

Lemma bar_ok_within (c t : nat) :
  (c <= t)%nat -> (0 < t)%nat -> (t <= 100)%nat -> bar_ok c t = true.
Proof. exact (bar_ok_upto_spec 100 bar_ok_upto_100 c t). Qed.

(** X15. For a batch of 1 to 100 calls the bar is an integer from 0 to
    100; it reads 100 exactly when every call is completed and 0 exactly
    when none is; and one more completed call never lowers it. *)
Theorem bar_full_iff_all_completed (cs : list BatchCall) :
  (0 < total cs)%nat -> (total cs <= 100)%nat ->
  exists z,
    progressPct cs = Some z
    /\ 0 <= z <= 100
    /\ (z = 100 <-> completed cs = total cs)
    /\ (z = 0 <-> completed cs = 0%nat)
    /\ (forall c', completed cs = S c' ->
          exists z', pct_of c' (total cs) = Some z' /\ z' <= z).
Proof.
  intros H0 Ht.
  pose proof (bar_ok_within _ _ (completed_le_total cs) H0 Ht) as Hb.
  unfold bar_ok in Hb. unfold progressPct.
  destruct (pct_of (completed cs) (total cs)) as [z|]; [|discriminate].
  exists z. split; [reflexivity|].
  apply andb_true_iff in Hb. destruct Hb as [Hb Hmono].
  apply andb_true_iff in Hb. destruct Hb as [Hb Hzero].
  apply andb_true_iff in Hb. destruct Hb as [Hb Hfull].
  apply andb_true_iff in Hb. destruct Hb as [Hlo Hhi].
  apply Z.leb_le in Hlo, Hhi.
  apply Bool.eqb_prop in Hzero, Hfull.
  split; [lia|]. split; [|split].
  - rewrite <- Z.eqb_eq, Hfull. apply Nat.eqb_eq.
  - rewrite <- Z.eqb_eq, Hzero. apply Nat.eqb_eq.
  - intros c' Hc. rewrite Hc in Hmono.
    destruct (pct_of c' (total cs)) as [z'|]; [|discriminate].
    exists z'. split; [reflexivity|]. apply Z.leb_le. exact Hmono.
Qed.

Lemma bar_full_iff_all_completed_witness :
  let cs := [mkCall 1 "completed" None; mkCall 2 "failed" None] in
  exists z, progressPct cs = Some z /\ z <> 100.
Proof.
  intro cs.
  assert (H0 : (0 < total cs)%nat) by (simpl; lia).
  assert (Ht : (total cs <= 100)%nat) by (simpl; lia).
  destruct (bar_full_iff_all_completed cs H0 Ht) as [z [Hz [_ [Hfull _]]]].
  exists z. split; [exact Hz|].
  intros E. apply Hfull in E. discriminate E.
Defined.

End BatchBar.

(** ** Score colours *)

Section Scores.
Import CallsPage Invariants.

Lemma all_from_spec (n : nat) :
  forall (z : Z) (P : Z -> bool),
    all_from z n P = true ->
    forall k, z <= k < z + Z.of_nat n -> P k = true.
Proof.
  induction n as [|n IH]; intros z P H k Hk; [lia|].
  cbn [all_from] in H. apply andb_true_iff in H. destruct H as [Hz Hrest].
  destruct (Z.eq_dec k z) as [-> | Hne]; [exact Hz|].
  apply (IH (z + 1) P Hrest). lia.
Qed.

Lemma dial_agrees_all : all_from 0 2001 dial_agrees = true.
Proof. vm_compute. reflexivity. Qed.

(** X16. For every integer score from -1000 to 1000 the dial (with the
    default maximum of 100) draws its arc in the colour the batch table
    gives that score: green from 80, amber from 60, red below, the division
    by 100 in double precision moving neither threshold. *)
Theorem dial_colour_matches_table (score : Z) :
  -1000 <= score <= 1000 ->
  ScoreDial.arcColor score = BatchFetch.scoreColor score.
Proof.
  intros Hs.
  pose proof (all_from_spec _ _ _ dial_agrees_all (score + 1000)) as H.
  assert (Hk : 0 <= score + 1000 < 0 + Z.of_nat 2001) by lia.
  specialize (H Hk). unfold dial_agrees in H.
  replace (score + 1000 - 1000) with score in H by lia.
  apply String.eqb_eq in H. exact H.
Qed.

Lemma dial_colour_matches_table_witness :
  ScoreDial.arcColor 80 = "#10b981" /\ ScoreDial.arcColor 79 = "#f59e0b".
Proof.
  assert (H80 : -1000 <= 80 <= 1000) by lia.
  assert (H79 : -1000 <= 79 <= 1000) by lia.
  rewrite (dial_colour_matches_table 80 H80), (dial_colour_matches_table 79 H79).
  split; reflexivity.
Defined.

End Scores.

(** ** The API client's interceptors *)

Section Interceptors.
Import Api.

(** X17. The request interceptor touches one header only. Every header
    other than [Authorization] passes through unchanged; [Authorization]
    becomes "Bearer " followed by the stored token when there is a window
    and the token is non-empty, and is left as it was otherwise (no
    window, no token, or an empty token). *)
Theorem request_adds_token_only (window : option Window) (headers : Headers) :
  (forall k, k <> "Authorization" -> on_request window headers k = headers k)
  /\ on_request window headers "Authorization"
     = match window with
       | Some w =>
           match getItem "access_token" (localStorage w) with
           | Some token =>
               if String.eqb token "" then headers "Authorization"
               else Some ("Bearer " ++ token)
           | None => headers "Authorization"
           end
       | None => headers "Authorization"
       end.
Proof.
  unfold on_request, setHeader. split.
  - intros k Hk. destruct window as [w|]; [|reflexivity].
    destruct (getItem "access_token" (localStorage w)) as [token|]; [|reflexivity].
    destruct (String.eqb token ""); [reflexivity|].
    destruct (String.eqb_spec k "Authorization"); [contradiction | reflexivity].
  - destruct window as [w|]; [|reflexivity].
    destruct (getItem "access_token" (localStorage w)) as [token|]; [|reflexivity].
    destruct (String.eqb token ""); reflexivity.
Qed.

Lemma request_adds_token_only_witness :
  let w := mkWindow (fun k => if String.eqb k "access_token" then Some "abc" else None)
                    "/calls" in
  let headers := fun k => if String.eqb k "Content-Type"
                          then Some "application/json" else None in
  on_request (Some w) headers "Content-Type" = Some "application/json"
  /\ on_request (Some w) headers "Authorization" = Some "Bearer abc".
Proof.
  intros w headers.
  destruct (request_adds_token_only (Some w) headers) as [Hk Ha].
  split; [rewrite Hk; [reflexivity | discriminate] | rewrite Ha; reflexivity].
Defined.

(** X18. The response interceptor always rejects with the error it was
    given. On a 401 in the browser it removes [access_token] and [user]
    from the storage, leaves every other key, and sends the browser to
    [/login]; for any other status, a missing response, or no window, it
    changes nothing. *)
Theorem unauthorized_drops_session (error : AxiosError) (window : option Window) :
  snd (on_response_error error window) = error
  /\ (forall w, response_status error = Some 401 -> window = Some w ->
        exists w',
          fst (on_response_error error window) = Some w'
          /\ href w' = "/login"
          /\ getItem "access_token" (localStorage w') = None
          /\ getItem "user" (localStorage w') = None
          /\ (forall k, k <> "access_token" -> k <> "user" ->
                getItem k (localStorage w') = getItem k (localStorage w)))
  /\ (response_status error <> Some 401 ->
      fst (on_response_error error window) = window)
  /\ (window = None -> fst (on_response_error error window) = None).
Proof.
  unfold on_response_error. split; [|split; [|split]].
  - destruct (response_status error) as [[|[]|]|]; try reflexivity;
      destruct window; repeat (match goal with |- context [match ?x with _ => _ end] =>
                                 destruct x end); reflexivity.
  - intros w Hs ->. rewrite Hs. eexists. split; [reflexivity|].
    cbn [href localStorage]. unfold getItem, removeItem.
    split; [reflexivity|]. split; [reflexivity|]. split; [reflexivity|].
    intros k H1 H2.
    destruct (String.eqb_spec k "user"); [contradiction|].
    destruct (String.eqb_spec k "access_token"); [contradiction | reflexivity].
  - intros Hs. destruct (response_status error) as [z|]; [|reflexivity].
    destruct (Z.eq_dec z 401) as [-> | Hne]; [congruence|].
    destruct z as [|p|p]; try reflexivity.
    repeat (match goal with |- context [match ?x with _ => _ end] =>
              destruct x end); try reflexivity; congruence.
  - intros ->. destruct (response_status error) as [z|]; [|reflexivity].
    destruct z as [|p|p]; try reflexivity.
    repeat (match goal with |- context [match ?x with _ => _ end] =>
              destruct x end); reflexivity.
Qed.

(** X19. After a 401 the next request goes out without the token: the
    request interceptor, run on the window the response interceptor left,
    adds no [Authorization] header. *)
Theorem no_token_after_unauthorized
    (error : AxiosError) (window : option Window) (headers : Headers) :
  response_status error = Some 401 ->
  on_request (fst (on_response_error error window)) headers "Authorization"
  = headers "Authorization".
Proof.
  intros Hs. unfold on_response_error. rewrite Hs.
  destruct window as [w|]; reflexivity.
Qed.

Lemma unauthorized_drops_session_witness :
  let w := mkWindow (fun k => if String.eqb k "access_token" then Some "abc"
                              else if String.eqb k "theme" then Some "dark" else None)
                    "/calls/7" in
  exists w',
    fst (on_response_error (mkError (Some 401)) (Some w)) = Some w'
    /\ href w' = "/login"
    /\ getItem "access_token" (localStorage w') = None
    /\ getItem "theme" (localStorage w') = Some "dark".
Proof.
  intro w.
  destruct (unauthorized_drops_session (mkError (Some 401)) (Some w))
    as [_ [H _]].
  destruct (H w eq_refl eq_refl) as [w' [Hw [Hh [Ht [_ Hk]]]]].
  exists w'. split; [exact Hw|]. split; [exact Hh|]. split; [exact Ht|].
  rewrite Hk; [reflexivity | discriminate | discriminate].
Defined.

Lemma no_token_after_unauthorized_witness :
  let w := mkWindow (fun k => if String.eqb k "access_token" then Some "abc" else None)
                    "/calls/7" in
  on_request (Some w) (fun _ => None) "Authorization" = Some "Bearer abc"
  /\ on_request (fst (on_response_error (mkError (Some 401)) (Some w)))
                (fun _ => None) "Authorization" = None.
Proof.
  intro w. split; [reflexivity|].
  exact (no_token_after_unauthorized (mkError (Some 401)) (Some w)
           (fun _ => None) eq_refl).
Defined.

End Interceptors.

(** ** The calls list *)

Section CallsList.
Import CallsPage.

Lemma pages_agree_all : all_from 0 (200 * 100 + 1) pages_agree = true.
Proof. vm_compute. reflexivity. Qed.

(** X20. For every total from 0 to 20000 the number of pages,
    [Math.ceil(total / 20)] in double precision, is the exact ceiling of
    total / 20: 0 pages for no calls, and a last page for any remainder. *)
Theorem total_pages_exact (n : Z) :
  0 <= n <= 20000 -> totalPages n = Some ((n + 19) / 20).
Proof.
  intros Hn.
  pose proof (all_from_spec _ _ _ pages_agree_all n) as H.
  assert (Hk : 0 <= n < 0 + Z.of_nat (200 * 100 + 1)) by lia.
  specialize (H Hk). unfold pages_agree in H.
  destruct (totalPages n) as [m|]; [|discriminate].
  apply Z.eqb_eq in H. rewrite H. reflexivity.
Qed.

Lemma total_pages_exact_witness :
  totalPages 0 = Some 0 /\ totalPages 20 = Some 1 /\ totalPages 21 = Some 2.
Proof.
  assert (H0 : 0 <= 0 <= 20000) by lia.
  assert (H20 : 0 <= 20 <= 20000) by lia.
  assert (H21 : 0 <= 21 <= 20000) by lia.
  rewrite (total_pages_exact 0 H0), (total_pages_exact 20 H20),
    (total_pages_exact 21 H21).
  repeat split; reflexivity.
Defined.

Lemma click_keeps_range (c : Click) (s s' : State) :
  click c s = Some s' ->
  1 <= page s ->
  1 <= page s'
  /\ ((forall n, c <> Loaded n) ->
      total s' = total s
      /\ (page s <= Z.max 1 (pages s) -> page s' <= Z.max 1 (pages s'))).
Proof.
  intros Hc H1. destruct c as [| | st | n]; unfold click in Hc.
  - destruct ((1 <? pages s) && negb (page s =? 1)); inversion Hc; subst; clear Hc.
    unfold pages; cbn [page total]. split; [lia|].
    intros _. split; [reflexivity|]. lia.
  - destruct ((1 <? pages s) && negb (page s =? pages s)) eqn:E;
      inversion Hc; subst; clear Hc.
    apply andb_true_iff in E. destruct E as [E _]. apply Z.ltb_lt in E.
    unfold pages in *; cbn [page total] in *. split; [lia|].
    intros _. split; [reflexivity|]. lia.
  - inversion Hc; subst; clear Hc. unfold pages; cbn [page total].
    split; [lia|]. intros _. split; [reflexivity|]. lia.
  - inversion Hc; subst; clear Hc. cbn [page]. split; [exact H1|].
    intros H. exfalso. apply (H n). reflexivity.
Qed.

(** X21. The page number never drops below 1, whatever is clicked or
    loaded. As long as no new total arrives it also never passes the last
    page: from a page within 1 .. max(1, totalPages), Previous, Next and the
    status filters keep it there; Previous on page 1 and Next on the last
    page do not fire. *)
Theorem page_stays_in_range (cs : list Click) :
  forall s s',
    clicks cs s = Some s' ->
    1 <= page s ->
    1 <= page s'
    /\ ((forall n, ~ In (Loaded n) cs) ->
        total s' = total s
        /\ (page s <= Z.max 1 (pages s) -> page s' <= Z.max 1 (pages s'))).
Proof.
  induction cs as [|c cs IH]; intros s s' Hr H1; simpl in Hr.
  - inversion Hr; subst. split; [exact H1|]. intros _. split; [reflexivity | auto].
  - destruct (click c s) as [s1|] eqn:Hc; [|discriminate].
    destruct (click_keeps_range _ _ _ Hc H1) as [H1' Hup].
    destruct (IH _ _ Hr H1') as [Hlo Hrest].
    split; [exact Hlo|]. intros Hno.
    assert (Hc' : forall n, c <> Loaded n).
    { intros n E. apply (Hno n). left. exact E. }
    assert (Hcs : forall n, ~ In (Loaded n) cs).
    { intros n Hin. apply (Hno n). right. exact Hin. }
    destruct (Hup Hc') as [Ht1 Hp1]. destruct (Hrest Hcs) as [Ht2 Hp2].
    split; [congruence | auto].
Qed.

Lemma page_stays_in_range_witness :
  exists s',
    clicks [Next; Filter "failed"; Next; Next] (mkState 1 45 "") = Some s'
    /\ 1 <= page s'
    /\ page s' <= Z.max 1 (pages s')
    /\ click Next s' = None.
Proof.
  exists (mkState 3 45 "failed").
  assert (Hr : clicks [Next; Filter "failed"; Next; Next] (mkState 1 45 "")
               = Some (mkState 3 45 "failed"))
    by (vm_compute; reflexivity).
  assert (H1 : 1 <= page (mkState 1 45 "")) by (simpl; lia).
  destruct (page_stays_in_range _ _ _ Hr H1) as [Hlo Hup].
  assert (Hno : forall n, ~ In (Loaded n) [Next; Filter "failed"; Next; Next]).
  { intros n [H | [H | [H | [H | []]]]]; discriminate H. }
  destruct (Hup Hno) as [_ Hhi].
  split; [exact Hr|]. split; [exact Hlo|].
  split; [apply Hhi; vm_compute; discriminate | vm_compute; reflexivity].
Defined.

Lemma duration_agrees_all : all_from 0 (360 * 100) duration_agrees = true.
Proof. vm_compute. reflexivity. Qed.

(** X22. The duration cell shows a dash for a missing or zero duration.
    For a whole number of seconds from 1 to 36000 it shows the exact
    minutes and seconds: [Math.floor(d / 60)] in double precision is
    [d / 60], and the seconds are [d mod 60], below 60, so that minutes
    times 60 plus seconds is the duration again. *)
Theorem duration_cell_exact (d : Z) :
  duration_parts None = None
  /\ duration_parts (Some 0) = None
  /\ (0 < d <= 36000 ->
      duration_parts (Some d) = Some (d / 60, d mod 60)
      /\ 0 <= d mod 60 < 60
      /\ (d / 60) * 60 + d mod 60 = d).
Proof.
  split; [reflexivity|]. split; [reflexivity|]. intros Hd.
  pose proof (all_from_spec _ _ _ duration_agrees_all (d - 1)) as H.
  assert (Hk : 0 <= d - 1 < 0 + Z.of_nat (360 * 100)) by lia.
  specialize (H Hk). unfold duration_agrees in H.
  replace (d - 1 + 1) with d in H by lia.
  destruct (duration_parts (Some d)) as [[m s]|]; [|discriminate].
  apply andb_true_iff in H. destruct H as [Hm Hs].
  apply Z.eqb_eq in Hm, Hs. subst m s.
  split; [reflexivity|]. split; [apply Z.mod_pos_bound; lia|].
  pose proof (Z.div_mod d 60). lia.
Qed.

Lemma duration_cell_exact_witness :
  duration_parts (Some 83) = Some (1, 23).
Proof.
  destruct (duration_cell_exact 83) as [_ [_ H]].
  assert (Hd : 0 < 83 <= 36000) by lia.
  destruct (H Hd) as [He _]. exact He.
Defined.

End CallsList.

(** ** Frames and sockets over a whole run *)

Section Streams.
Import Js UseWebSocket PipelineProgress Protocol CallDetailPage.

(** X23. [ws.onmessage] never lets an exception out, whatever callback
    the hook was given: a frame that does not parse leaves the state as it
    was, and when the callback throws, the state is the one it had reached
    at the throw (nothing is rolled back). *)
Theorem onmessage_swallows_errors
    (S : Type) (k : JVal -> Eff S unit) (f : Frame) (s : S) :
  completes (ws_onmessage (Some k) f s) = true
  /\ (f = NotJson -> final_state (ws_onmessage (Some k) f s) = s)
  /\ (forall v, f = Json v ->
        final_state (ws_onmessage (Some k) f s) = final_state (k v s)).
Proof.
  split; [apply ws_onmessage_completes|]. split.
  - intros ->. reflexivity.
  - intros v ->. unfold ws_onmessage, try_catch, bind, JSON_parse, ret.
    destruct (k v s); reflexivity.
Qed.

Lemma onmessage_swallows_errors_witness :
  let k := fun (_ : JVal) => (modify (fun n : nat => Datatypes.S n) ;;; throw TypeError)%eff in
  final_state (ws_onmessage (Some k) (Json JNull) 0%nat) = 1%nat
  /\ final_state (ws_onmessage (Some k) NotJson 0%nat) = 0%nat.
Proof.
  intro k.
  destruct (onmessage_swallows_errors nat k (Json JNull) 0%nat) as [_ [_ Hj]].
  destruct (onmessage_swallows_errors nat k NotJson 0%nat) as [_ [Hn _]].
  split; [rewrite (Hj JNull eq_refl); reflexivity | apply Hn; reflexivity].
Defined.

(** X24. Frames that are not recognized are noise: removing the pings,
    the malformed frames and the frames of other types from a stream
    changes neither the view it leads to nor the callbacks it runs. *)
Theorem noise_frames_do_not_matter
    (W : Type) (oc : option (W -> W)) (fs : list Frame) :
  forall sw : State * W,
    deliver oc (filter recognized fs) sw = deliver oc fs sw.
Proof.
  unfold deliver. induction fs as [|f fs IH]; intros sw; simpl; [reflexivity|].
  destruct (recognized f) eqn:Hr; simpl.
  - apply IH.
  - rewrite (handle_unrecognized oc f sw Hr). apply IH.
Qed.

End Streams.

Lemma stage_icon_matches_text_witness :
  fst (PanelRender.StageIcon (Some (Js.JStr "pending"))) = PanelRender.Circle
  /\ snd (PanelRender.StageIcon (Some (Js.JStr "pending"))) = "var(--text-secondary)".
Proof.
  destruct (stage_icon_matches_text (Some (Js.JStr "pending"))) as [Hc [_ Hi]].
  split; [apply Hi; repeat split; reflexivity | rewrite Hc; reflexivity].
Defined.
